(** * AuraLink backend: the enrichment pipeline of [backend/main.py] and
      [backend/main_api.py]

    The two Python modules are two deployments of the same pipeline: the
    bus-driven service ([main.py], module [Main] below) and the HTTP service
    with live viewers ([main_api.py], module [MainApi] below).

    Conventions of the embedding:
    - Python text is a [string] that holds its UTF-8 encoding.
    - The Python global variables of a module are the fields of a [state]
      record, and a function that reads or writes them is a computation in
      the state-and-exception monad [M].
    - What lies outside the repository (the JSON decoder, the text backend,
      a viewer's socket) is a [Variable] of the enclosing [Section].
    - [print] and [logger] calls are left out: no property below observes
      them. *)

From stdpp Require Import gmap strings list.
From Stdlib Require Import ZArith Ascii.

Local Open Scope string_scope.
Local Open Scope list_scope.
Local Open Scope Z_scope.

(** ** Python values and helpers *)

(** A decoded JSON document, as [json.loads] returns it. A number keeps its
    decimal form [mantissa * 10 ^ exponent]; the pipeline never computes with
    it. *)
Record number : Type := Decimal { mantissa : Z; exponent : Z }.

#[warnings="-register-all"]
Inductive json : Type :=
  | JNull
  | JBool (b : bool)
  | JNum (n : number)
  | JStr (s : string)
  | JArr (items : list json)
  | JObj (fields : gmap string json).

(** The exceptions the modelled code can meet. *)
Inductive exn : Type :=
  | JSONDecodeError
  | AttributeError
  | IndexError
  | BackendError
  | WebSocketError
  | HTTPException (status_code : Z).

Inductive outcome (A : Type) : Type :=
  | Return (a : A)
  | Raise (e : exn).
Arguments Return {A} a.
Arguments Raise {A} e.

(** State-and-exception monad: an exception leaves the state as it was when
    the exception was raised. *)
Definition M (St A : Type) : Type := St → outcome A * St.

Definition ret {St A} (a : A) : M St A := λ st, (Return a, st).

Definition raise {St A} (e : exn) : M St A := λ st, (Raise e, st).

Definition bind {St A B} (m : M St A) (k : A → M St B) : M St B :=
  λ st, match m st with
        | (Return a, st') => k a st'
        | (Raise e, st') => (Raise e, st')
        end.

(** [try: body  except Exception as e: handler e] *)
Definition try_except {St A} (body : M St A) (handler : exn → M St A) : M St A :=
  λ st, match body st with
        | (Return a, st') => (Return a, st')
        | (Raise e, st') => handler e st'
        end.

Definition gets {St A} (f : St → A) : M St A := λ st, (Return (f st), st).

Definition modify {St} (f : St → St) : M St unit := λ st, (Return tt, f st).

Definition when {St} (b : bool) (m : M St unit) : M St unit :=
  if b then m else ret tt.

Notation "x <~ c ;; k" := (bind c (λ x, k))
  (at level 100, c at next level, right associativity).
Notation "c ;;; k" := (bind c (λ _, k))
  (at level 100, right associativity).

(** [l[i]] on a Python list: a negative index counts from the end, and an
    index outside [-len, len) raises [IndexError]. *)
Definition py_index {A} (l : list A) (i : Z) : option A :=
  if bool_decide (0 ≤ i) then l !! Z.to_nat i
  else if bool_decide (- Z.of_nat (length l) ≤ i) then l !! Z.to_nat (Z.of_nat (length l) + i)
  else None.

(** [list.remove(x)]: drops the first element equal to [x]. (Python raises
    [ValueError] when there is none; the callers below only remove an element
    they have just read from the list.) *)
Fixpoint list_remove {A} `{EqDecision A} (x : A) (l : list A) : list A :=
  match l with
  | [] => []
  | y :: l' => if decide (x = y) then l' else y :: list_remove x l'
  end.

(** [list.remove(x)] with its error: [None] stands for the [ValueError]
    Python raises when no element equals [x]. *)
Definition py_remove {A} `{EqDecision A} (x : A) (l : list A) : option (list A) :=
  if decide (x ∈ l) then Some (list_remove x l) else None.

(** Truth value of an [Optional[str]]: [None] and the empty text are false. *)
Definition truthy (o : option string) : bool :=
  match o with
  | Some s => negb (String.eqb s "")
  | None => false
  end.

(** *** Text

    A [string] holds the UTF-8 encoding of a Python [str], one [ascii] per
    byte, so that text outside ASCII is text of the model too. [str.upper]
    and [str.strip] are those of Python 3.11 (Unicode 14.0): they work on
    the characters, not on the bytes. *)

(** The UTF-8 encoding of the character with code point [c]. *)
Definition encode_point (c : N) : string :=
  (if c <? 128 then String (ascii_of_N c) ""
   else if c <? 2048 then
     String (ascii_of_N (192 + c / 64)) (String (ascii_of_N (128 + c mod 64)) "")
   else if c <? 65536 then
     String (ascii_of_N (224 + c / 4096))
       (String (ascii_of_N (128 + (c / 64) mod 64))
          (String (ascii_of_N (128 + c mod 64)) ""))
   else
     String (ascii_of_N (240 + c / 262144))
       (String (ascii_of_N (128 + (c / 4096) mod 64))
          (String (ascii_of_N (128 + (c / 64) mod 64))
             (String (ascii_of_N (128 + c mod 64)) ""))))%N.

Fixpoint encode_points (cs : list N) : string :=
  match cs with
  | [] => ""
  | c :: cs' => encode_point c +:+ encode_points cs'
  end.

(** A continuation byte of a UTF-8 sequence. *)
Definition is_cont (a : ascii) : bool :=
  ((128 <=? N_of_ascii a) && (N_of_ascii a <=? 191))%N.

(** The code point of a well-formed two-, three- or four-byte sequence. *)
Definition point2 (a b : ascii) : N :=
  ((N_of_ascii a - 192) * 64 + (N_of_ascii b - 128))%N.

Definition point3 (a b c : ascii) : N :=
  ((N_of_ascii a - 224) * 4096 + (N_of_ascii b - 128) * 64 + (N_of_ascii c - 128))%N.

Definition point4 (a b c d : ascii) : N :=
  ((N_of_ascii a - 240) * 262144 + (N_of_ascii b - 128) * 4096
   + (N_of_ascii c - 128) * 64 + (N_of_ascii d - 128))%N.

(** The characters whose upper case is one other character, as runs
    [(first, last, step, upper case of first)]: the characters [first],
    [first + step], ..., [last] map to consecutive code points from the
    fourth component on, at the same step. *)
Definition upper_ranges : list (N * N * N * N) :=
  [ (97, 122, 1, 65); (181, 181, 1, 924); (224, 246, 1, 192); (248, 254, 1,
    216); (255, 255, 1, 376); (257, 303, 2, 256); (305, 305, 1, 73); (307,
    311, 2, 306); (314, 328, 2, 313); (331, 375, 2, 330); (378, 382, 2,
    377); (383, 383, 1, 83); (384, 384, 1, 579); (387, 389, 2, 386); (392,
    392, 1, 391); (396, 396, 1, 395); (402, 402, 1, 401); (405, 405, 1,
    502); (409, 409, 1, 408); (410, 410, 1, 573); (414, 414, 1, 544); (417,
    421, 2, 416); (424, 424, 1, 423); (429, 429, 1, 428); (432, 432, 1,
    431); (436, 438, 2, 435); (441, 441, 1, 440); (445, 445, 1, 444); (447,
    447, 1, 503); (453, 453, 1, 452); (454, 454, 1, 452); (456, 456, 1,
    455); (457, 457, 1, 455); (459, 459, 1, 458); (460, 460, 1, 458); (462,
    476, 2, 461); (477, 477, 1, 398); (479, 495, 2, 478); (498, 498, 1,
    497); (499, 499, 1, 497); (501, 501, 1, 500); (505, 543, 2, 504); (547,
    563, 2, 546); (572, 572, 1, 571); (575, 576, 1, 11390); (578, 578, 1,
    577); (583, 591, 2, 582); (592, 592, 1, 11375); (593, 593, 1, 11373);
    (594, 594, 1, 11376); (595, 595, 1, 385); (596, 596, 1, 390); (598, 599,
    1, 393); (601, 601, 1, 399); (603, 603, 1, 400); (604, 604, 1, 42923);
    (608, 608, 1, 403); (609, 609, 1, 42924); (611, 611, 1, 404); (613, 613,
    1, 42893); (614, 614, 1, 42922); (616, 616, 1, 407); (617, 617, 1, 406);
    (618, 618, 1, 42926); (619, 619, 1, 11362); (620, 620, 1, 42925); (623,
    623, 1, 412); (625, 625, 1, 11374); (626, 626, 1, 413); (629, 629, 1,
    415); (637, 637, 1, 11364); (640, 640, 1, 422); (642, 642, 1, 42949);
    (643, 643, 1, 425); (647, 647, 1, 42929); (648, 648, 1, 430); (649, 649,
    1, 580); (650, 651, 1, 433); (652, 652, 1, 581); (658, 658, 1, 439);
    (669, 669, 1, 42930); (670, 670, 1, 42928); (837, 837, 1, 921); (881,
    883, 2, 880); (887, 887, 1, 886); (891, 893, 1, 1021); (940, 940, 1,
    902); (941, 943, 1, 904); (945, 961, 1, 913); (962, 962, 1, 931); (963,
    971, 1, 931); (972, 972, 1, 908); (973, 974, 1, 910); (976, 976, 1,
    914); (977, 977, 1, 920); (981, 981, 1, 934); (982, 982, 1, 928); (983,
    983, 1, 975); (985, 1007, 2, 984); (1008, 1008, 1, 922); (1009, 1009, 1,
    929); (1010, 1010, 1, 1017); (1011, 1011, 1, 895); (1013, 1013, 1, 917);
    (1016, 1016, 1, 1015); (1019, 1019, 1, 1018); (1072, 1103, 1, 1040);
    (1104, 1119, 1, 1024); (1121, 1153, 2, 1120); (1163, 1215, 2, 1162);
    (1218, 1230, 2, 1217); (1231, 1231, 1, 1216); (1233, 1327, 2, 1232);
    (1377, 1414, 1, 1329); (4304, 4346, 1, 7312); (4349, 4351, 1, 7357);
    (5112, 5117, 1, 5104); (7296, 7296, 1, 1042); (7297, 7297, 1, 1044);
    (7298, 7298, 1, 1054); (7299, 7300, 1, 1057); (7301, 7301, 1, 1058);
    (7302, 7302, 1, 1066); (7303, 7303, 1, 1122); (7304, 7304, 1, 42570);
    (7545, 7545, 1, 42877); (7549, 7549, 1, 11363); (7566, 7566, 1, 42950);
    (7681, 7829, 2, 7680); (7835, 7835, 1, 7776); (7841, 7935, 2, 7840);
    (7936, 7943, 1, 7944); (7952, 7957, 1, 7960); (7968, 7975, 1, 7976);
    (7984, 7991, 1, 7992); (8000, 8005, 1, 8008); (8017, 8023, 2, 8025);
    (8032, 8039, 1, 8040); (8048, 8049, 1, 8122); (8050, 8053, 1, 8136);
    (8054, 8055, 1, 8154); (8056, 8057, 1, 8184); (8058, 8059, 1, 8170);
    (8060, 8061, 1, 8186); (8112, 8113, 1, 8120); (8126, 8126, 1, 921);
    (8144, 8145, 1, 8152); (8160, 8161, 1, 8168); (8165, 8165, 1, 8172);
    (8526, 8526, 1, 8498); (8560, 8575, 1, 8544); (8580, 8580, 1, 8579);
    (9424, 9449, 1, 9398); (11312, 11359, 1, 11264); (11361, 11361, 1,
    11360); (11365, 11365, 1, 570); (11366, 11366, 1, 574); (11368, 11372,
    2, 11367); (11379, 11379, 1, 11378); (11382, 11382, 1, 11381); (11393,
    11491, 2, 11392); (11500, 11502, 2, 11499); (11507, 11507, 1, 11506);
    (11520, 11557, 1, 4256); (11559, 11559, 1, 4295); (11565, 11565, 1,
    4301); (42561, 42605, 2, 42560); (42625, 42651, 2, 42624); (42787,
    42799, 2, 42786); (42803, 42863, 2, 42802); (42874, 42876, 2, 42873);
    (42879, 42887, 2, 42878); (42892, 42892, 1, 42891); (42897, 42899, 2,
    42896); (42900, 42900, 1, 42948); (42903, 42921, 2, 42902); (42933,
    42947, 2, 42932); (42952, 42954, 2, 42951); (42961, 42961, 1, 42960);
    (42967, 42969, 2, 42966); (42998, 42998, 1, 42997); (43859, 43859, 1,
    42931); (43888, 43967, 1, 5024); (65345, 65370, 1, 65313); (66600,
    66639, 1, 66560); (66776, 66811, 1, 66736); (66967, 66977, 1, 66928);
    (66979, 66993, 1, 66940); (66995, 67001, 1, 66956); (67003, 67004, 1,
    66964); (68800, 68850, 1, 68736); (71872, 71903, 1, 71840); (93792,
    93823, 1, 93760); (125218, 125251, 1, 125184) ]%N.

(** The characters whose upper case is more than one character. *)
Definition upper_special : list (N * list N) :=
  [ (223, [83; 83]); (329, [700; 78]); (496, [74; 780]); (912, [921; 776;
    769]); (944, [933; 776; 769]); (1415, [1333; 1362]); (7830, [72; 817]);
    (7831, [84; 776]); (7832, [87; 778]); (7833, [89; 778]); (7834, [65;
    702]); (8016, [933; 787]); (8018, [933; 787; 768]); (8020, [933; 787;
    769]); (8022, [933; 787; 834]); (8064, [7944; 921]); (8065, [7945;
    921]); (8066, [7946; 921]); (8067, [7947; 921]); (8068, [7948; 921]);
    (8069, [7949; 921]); (8070, [7950; 921]); (8071, [7951; 921]); (8072,
    [7944; 921]); (8073, [7945; 921]); (8074, [7946; 921]); (8075, [7947;
    921]); (8076, [7948; 921]); (8077, [7949; 921]); (8078, [7950; 921]);
    (8079, [7951; 921]); (8080, [7976; 921]); (8081, [7977; 921]); (8082,
    [7978; 921]); (8083, [7979; 921]); (8084, [7980; 921]); (8085, [7981;
    921]); (8086, [7982; 921]); (8087, [7983; 921]); (8088, [7976; 921]);
    (8089, [7977; 921]); (8090, [7978; 921]); (8091, [7979; 921]); (8092,
    [7980; 921]); (8093, [7981; 921]); (8094, [7982; 921]); (8095, [7983;
    921]); (8096, [8040; 921]); (8097, [8041; 921]); (8098, [8042; 921]);
    (8099, [8043; 921]); (8100, [8044; 921]); (8101, [8045; 921]); (8102,
    [8046; 921]); (8103, [8047; 921]); (8104, [8040; 921]); (8105, [8041;
    921]); (8106, [8042; 921]); (8107, [8043; 921]); (8108, [8044; 921]);
    (8109, [8045; 921]); (8110, [8046; 921]); (8111, [8047; 921]); (8114,
    [8122; 921]); (8115, [913; 921]); (8116, [902; 921]); (8118, [913;
    834]); (8119, [913; 834; 921]); (8124, [913; 921]); (8130, [8138; 921]);
    (8131, [919; 921]); (8132, [905; 921]); (8134, [919; 834]); (8135, [919;
    834; 921]); (8140, [919; 921]); (8146, [921; 776; 768]); (8147, [921;
    776; 769]); (8150, [921; 834]); (8151, [921; 776; 834]); (8162, [933;
    776; 768]); (8163, [933; 776; 769]); (8164, [929; 787]); (8166, [933;
    834]); (8167, [933; 776; 834]); (8178, [8186; 921]); (8179, [937; 921]);
    (8180, [911; 921]); (8182, [937; 834]); (8183, [937; 834; 921]); (8188,
    [937; 921]); (64256, [70; 70]); (64257, [70; 73]); (64258, [70; 76]);
    (64259, [70; 70; 73]); (64260, [70; 70; 76]); (64261, [83; 84]); (64262,
    [83; 84]); (64275, [1348; 1350]); (64276, [1348; 1333]); (64277, [1348;
    1339]); (64278, [1358; 1350]); (64279, [1348; 1341]) ]%N.

Fixpoint upper_in_ranges (ranges : list (N * N * N * N)) (c : N) : option N :=
  match ranges with
  | [] => None
  | (first, last, step, target) :: ranges' =>
      if ((first <=? c) && (c <=? last) && ((c - first) mod step =? 0))%N
      then Some (target + (c - first))%N
      else upper_in_ranges ranges' c
  end.

Fixpoint upper_in_special (table : list (N * list N)) (c : N) : option (list N) :=
  match table with
  | [] => None
  | (c', cs) :: table' => if (c =? c')%N then Some cs else upper_in_special table' c
  end.

(** The upper case of the character [c], when it differs from [c]. *)
Definition upper_point (c : N) : option (list N) :=
  match upper_in_special upper_special c with
  | Some cs => Some cs
  | None =>
      match upper_in_ranges upper_ranges c with
      | Some c' => Some [c']
      | None => None
      end
  end.

(** The bytes of the upper case of the character [c] encoded as [bytes]. *)
Definition upper_bytes (c : N) (bytes : string) : string :=
  match upper_point c with
  | Some cs => encode_points cs
  | None => bytes
  end.

(** [str.upper]: every character is replaced by its upper case. A byte that
    does not start a well-formed sequence is copied. *)
Fixpoint upper (s : string) : string :=
  match s with
  | EmptyString => EmptyString
  | String a s1 =>
      let x := N_of_ascii a in
      if (x <? 128)%N then upper_bytes x (String a "") +:+ upper s1
      else
        match s1 with
        | String b s2 =>
            if ((194 <=? x) && (x <=? 223))%N && is_cont b
            then upper_bytes (point2 a b) (String a (String b "")) +:+ upper s2
            else
              match s2 with
              | String c s3 =>
                  if ((224 <=? x) && (x <=? 239))%N && is_cont b && is_cont c
                  then upper_bytes (point3 a b c) (String a (String b (String c "")))
                       +:+ upper s3
                  else
                    match s3 with
                    | String d s4 =>
                        if ((240 <=? x) && (x <=? 244))%N
                           && is_cont b && is_cont c && is_cont d
                        then upper_bytes (point4 a b c d)
                               (String a (String b (String c (String d ""))))
                             +:+ upper s4
                        else String a (upper s1)
                    | EmptyString => String a (upper s1)
                    end
              | EmptyString => String a (upper s1)
              end
        | EmptyString => String a (upper s1)
        end
  end.

(** The white space of [str.strip], by the length of its encoding: the
    controls 9..13 and 28..31 and the space; U+0085 and U+00A0; U+1680,
    U+2000..U+200A, U+2028, U+2029, U+202F, U+205F and U+3000. *)
Definition space1 (a : ascii) : bool :=
  let n := N_of_ascii a in
  (((9 <=? n) && (n <=? 13)) || ((28 <=? n) && (n <=? 32)))%N.

Definition space2 (a b : ascii) : bool :=
  ((N_of_ascii a =? 194) && ((N_of_ascii b =? 133) || (N_of_ascii b =? 160)))%N.

Definition space3 (a b c : ascii) : bool :=
  let x := N_of_ascii a in
  let y := N_of_ascii b in
  let z := N_of_ascii c in
  (((x =? 225) && (y =? 154) && (z =? 128))
   || ((x =? 226) && (y =? 128)
       && (((128 <=? z) && (z <=? 138)) || (z =? 168) || (z =? 169) || (z =? 175)))
   || ((x =? 226) && (y =? 129) && (z =? 159))
   || ((x =? 227) && (y =? 128) && (z =? 128)))%N.

(** The text begins with a white-space character. *)
Definition starts_with_space (s : string) : bool :=
  match s with
  | String a s1 =>
      space1 a
      || match s1 with
         | String b s2 =>
             space2 a b
             || match s2 with
                | String c _ => space3 a b c
                | EmptyString => false
                end
         | EmptyString => false
         end
  | EmptyString => false
  end.

(** The text is one white-space character. *)
Definition is_space (s : string) : bool :=
  match s with
  | String a EmptyString => space1 a
  | String a (String b EmptyString) => space2 a b
  | String a (String b (String c EmptyString)) => space3 a b c
  | _ => false
  end.

(** [str.lstrip]: the white space at the start goes. *)
Fixpoint lstrip (s : string) : string :=
  match s with
  | EmptyString => EmptyString
  | String a s1 =>
      if space1 a then lstrip s1
      else
        match s1 with
        | String b s2 =>
            if space2 a b then lstrip s2
            else
              match s2 with
              | String c s3 => if space3 a b c then lstrip s3 else s
              | EmptyString => s
              end
        | EmptyString => s
        end
  end.

(** [str.rstrip]: the white space at the end goes. Coming from the end,
    what is left of the text behind a byte is known; when the byte and what
    is left behind it make up one white-space character, that goes too. *)
Fixpoint rstrip (s : string) : string :=
  match s with
  | EmptyString => EmptyString
  | String a s' =>
      if is_space (String a (rstrip s')) then EmptyString
      else String a (rstrip s')
  end.

(** [str.strip] *)
Definition strip (s : string) : string := rstrip (lstrip s).

Definition nl : string := String (ascii_of_N 10) EmptyString.

(** The bus topics, the same strings in both modules. *)
Definition TOPIC_SENSOR_DATA : string := "auralink/sensor/data".
Definition TOPIC_DISPLAY_QUOTE : string := "auralink/display/quote".
Definition TOPIC_DISPLAY_SUMMARY : string := "auralink/display/summary".
Definition TOPIC_URGENCY_LED : string := "auralink/urgency/led".

(** The three requests to the text backend. The prompt text is a fixed
    template around the arguments, so a request is the template's name with
    its arguments. *)
Inductive prompt : Type :=
  | QuotePrompt (temp humidity : json)
  | SummaryPrompt (email_content : string)
  | UrgencyPrompt (email_content : string).

(** ** [backend/main.py]: the bus-driven service *)
Module Main.

Record email : Type := { sender : string; subject : string; body : string }.

Definition mock_emails : list email :=
  [ {| sender := "boss@work.com";
       subject := "Urgent: Project Deadline Moved Up";
       body := "Hi team, please be advised that the deadline for the Q3 report has been moved to this Friday. All hands on deck to get this finalized. I need the preliminary draft by EOD tomorrow. Thanks." |};
    {| sender := "newsletter@tech.io";
       subject := "This Week in AI";
       body := "Explore the latest advancements in generative models, a deep dive into reinforcement learning, and our predictions for the next wave of AI startups. Plus, a new dataset for computer vision enthusiasts has just been released." |};
    {| sender := "mom@family.com";
       subject := "Dinner this weekend?";
       body := "Hey sweetie, hope you're having a good week. I was wondering if you're free to come over for dinner on Saturday evening? Let me know if you can make it. Love, Mom." |} ].

(** The module's globals: the cursor [email_index], and what [client] has
    been asked to publish, oldest first, as (topic, payload) pairs. *)
Record state : Type := { email_index : Z; published : list (string * string) }.

Definition initial : state := {| email_index := 0; published := [] |}.

Definition set_email_index (i : Z) (st : state) : state :=
  {| email_index := i; published := published st |}.

(** [client.publish(topic, payload)] *)
Definition publish (topic payload : string) : M state unit :=
  modify (λ st, {| email_index := email_index st;
                   published := published st ++ [(topic, payload)] |}).

(** The text [get_latest_email] returns for a pool entry. *)
Definition format_email (email : email) : string :=
  "From: " +:+ sender email +:+ nl +:+ "Subject: " +:+ subject email
  +:+ nl +:+ nl +:+ body email.

Definition get_latest_email : M state string :=
  i <~ gets email_index ;;
  match py_index mock_emails i with
  | None => raise IndexError
  | Some email =>
      modify (set_email_index ((i + 1) `mod` Z.of_nat (length mock_emails))) ;;;
      ret (format_email email)
  end.

(** [n] calls in a row, with the texts they return, first call first. *)
Fixpoint fetch_many (n : nat) : M state (list string) :=
  match n with
  | O => ret []
  | S n' => e <~ get_latest_email ;; es <~ fetch_many n' ;; ret (e :: es)
  end.

Section Backend.
(** [openai.chat.completions.create(...)] followed by
    [.choices[0].message.content]: the text of the reply, or [None] when
    anything in that expression raises. *)
Variable openai_create : prompt → Z → option string.

(** [json.loads]: [None] stands for [JSONDecodeError]. *)
Variable json_loads : string → option json.

Definition call_openai_api (p : prompt) (max_tokens : Z) : option string :=
  match openai_create p max_tokens with
  | Some content => Some (strip content)
  | None => None
  end.

Definition generate_literary_quote (temp humidity : json) : option string :=
  call_openai_api (QuotePrompt temp humidity) 60.

Definition summarize_email (email_content : string) : option string :=
  call_openai_api (SummaryPrompt email_content) 60.

Definition analyze_email_urgency (email_content : string) : string :=
  let urgency := call_openai_api (UrgencyPrompt email_content) 5 in
  match urgency with
  | Some u =>
      if truthy urgency && bool_decide (upper u ∈ ["LOW"; "MEDIUM"; "HIGH"])
      then upper u
      else "LOW"
  | None => "LOW"
  end.

(** [data.get(key)]: [None] for a missing key; an [AttributeError] when
    the decoded document is not an object. *)
Definition data_get (data : json) (key : string) : M state json :=
  match data with
  | JObj fields => ret (default JNull (fields !! key))
  | _ => raise AttributeError
  end.

Definition is_None (v : json) : bool :=
  match v with JNull => true | _ => false end.

Definition process_sensor_data (payload_str : string) : M state unit :=
  try_except
    (data <~ (match json_loads payload_str with
              | Some d => ret d
              | None => raise JSONDecodeError
              end) ;;
     temp <~ data_get data "temperature" ;;
     humidity <~ data_get data "humidity" ;;
     if is_None temp || is_None humidity then ret tt
     else
       let quote := generate_literary_quote temp humidity in
       when (truthy quote) (publish TOPIC_DISPLAY_QUOTE (default "" quote)) ;;;
       email_content <~ get_latest_email ;;
       let summary := summarize_email email_content in
       let urgency := analyze_email_urgency email_content in
       when (truthy summary) (publish TOPIC_DISPLAY_SUMMARY (default "" summary)) ;;;
       when (truthy (Some urgency)) (publish TOPIC_URGENCY_LED urgency))
    (λ _, ret tt).

(** The handler run on the messages of the sensor topic one after the
    other, in arrival order. ([on_message] hands each payload to
    [process_sensor_data] in a thread of its own; this is the run in which
    the handlings do not overlap.) *)
Fixpoint process_all (payloads : list string) : M state unit :=
  match payloads with
  | [] => ret tt
  | payload_str :: rest => process_sensor_data payload_str ;;; process_all rest
  end.
End Backend.

End Main.

(** ** [backend/main_api.py]: the HTTP service with live viewers *)
Module MainApi.

Definition TOPIC_QUOTE : string := "auralink/display/quote".
Definition TOPIC_SUMMARY : string := "auralink/display/summary".
Definition TOPIC_URGENCY : string := "auralink/urgency/led".

(** A viewer's socket, known by the identity of the connection object. *)
Definition WebSocket : Type := nat.

(** The request body of [POST /data], after the framework has validated
    it. *)
Record SensorData : Type := {
  temperature : number;
  humidity : number;
  light_percent : Z;
  nox_percent : Z
}.

Definition MOCK_EMAILS : list string :=
  [ "Urgent: Server downtime detected! Immediate action required for system recovery.";
    "Weekly team meeting tomorrow at 10 AM. Please prepare your progress updates.";
    "New feature release scheduled for next week. Testing feedback needed.";
    "Holiday party planning - Looking for volunteers to help organize." ].

(** The module's globals: the viewer list, the cursor, what [mqtt_client]
    has been asked to publish (oldest first), and, for observation, every
    message a viewer's socket has accepted (oldest first). *)
Record state : Type := {
  active_connections : list WebSocket;
  current_email_index : Z;
  published : list (string * string);
  delivered : list (WebSocket * gmap string json)
}.

Definition initial : state :=
  {| active_connections := []; current_email_index := 0;
     published := []; delivered := [] |}.

Definition set_current_email_index (i : Z) (st : state) : state :=
  {| active_connections := active_connections st; current_email_index := i;
     published := published st; delivered := delivered st |}.

Definition set_active_connections (l : list WebSocket) (st : state) : state :=
  {| active_connections := l; current_email_index := current_email_index st;
     published := published st; delivered := delivered st |}.

Definition add_delivered (c : WebSocket) (message : gmap string json) (st : state) : state :=
  {| active_connections := active_connections st;
     current_email_index := current_email_index st;
     published := published st;
     delivered := delivered st ++ [(c, message)] |}.

(** [mqtt_client.publish(topic, payload)] *)
Definition publish (topic payload : string) : M state unit :=
  modify (λ st, {| active_connections := active_connections st;
                   current_email_index := current_email_index st;
                   published := published st ++ [(topic, payload)];
                   delivered := delivered st |}).

Definition get_latest_email : M state string :=
  i <~ gets current_email_index ;;
  match py_index MOCK_EMAILS i with
  | None => raise IndexError
  | Some email =>
      modify (set_current_email_index ((i + 1) `mod` Z.of_nat (length MOCK_EMAILS))) ;;;
      ret email
  end.

(** [n] calls in a row, with the texts they return, first call first. *)
Fixpoint fetch_many (n : nat) : M state (list string) :=
  match n with
  | O => ret []
  | S n' => e <~ get_latest_email ;; es <~ fetch_many n' ;; ret (e :: es)
  end.

(** How a call of [websocket_endpoint] ends: normally, or with the
    [ValueError] of [active_connections.remove]. *)
Inductive endpoint_exit : Type := Closed | ValueError.

(** [websocket_endpoint(websocket)]: the socket is appended to the viewer
    list, the receive loop runs until it raises (the [except] clause only
    logs), and the [finally] clause removes the socket from the list.
    [meanwhile] is what the rest of the service did to the globals while the
    loop was waiting. *)
Definition websocket_endpoint (websocket : WebSocket) (meanwhile : state → state)
    (st : state) : endpoint_exit * state :=
  let st1 := set_active_connections (active_connections st ++ [websocket]) st in
  let st2 := meanwhile st1 in
  match py_remove websocket (active_connections st2) with
  | Some conns => (Closed, set_active_connections conns st2)
  | None => (ValueError, st2)
  end.

Section Viewers.
(** [connection.send_json(message)]: [true] when the send goes through,
    [false] when it raises. *)
Variable send_json_ok : WebSocket → gmap string json → bool.

Definition send_json (connection : WebSocket) (message : gmap string json) : M state unit :=
  if send_json_ok connection message
  then modify (add_delivered connection message)
  else raise WebSocketError.

(** [for connection in active_connections: ...]. A Python list iterator
    holds an index into the live list: each round reads the element at the
    index, stops when the index has reached the current length, and moves
    the index on by one whatever the body did to the list. [fuel] bounds
    the number of rounds. *)
Fixpoint send_loop (fuel : nat) (message : gmap string json) (i : nat) : M state unit :=
  match fuel with
  | O => ret tt
  | S fuel' =>
      conns <~ gets active_connections ;;
      match conns !! i with
      | None => ret tt
      | Some connection =>
          try_except
            (send_json connection message)
            (λ _, modify (λ st,
               set_active_connections (list_remove connection (active_connections st)) st)) ;;;
          send_loop fuel' message (S i)
      end
  end.

Definition build_message (topic : string) (payload : gmap string json) : gmap string json :=
  if String.eqb topic TOPIC_SENSOR_DATA then
    payload ∪ {[ "type" := JStr "sensor_data" ]}
  else if String.eqb topic TOPIC_QUOTE then
    <[ "type" := JStr "display_message" ]>
      (<[ "quote" := default (JStr "") (payload !! "quote") ]>
         {[ "summary" := JStr "" ]})
  else if String.eqb topic TOPIC_SUMMARY then
    <[ "type" := JStr "display_message" ]>
      (<[ "quote" := JStr "" ]>
         {[ "summary" := default (JStr "") (payload !! "summary") ]})
  else if String.eqb topic TOPIC_URGENCY then
    <[ "type" := JStr "urgency" ]>
      {[ "level" := default (JStr "LOW") (payload !! "level") ]}
  else ∅.

(** The loop runs on as many rounds as the list has entries when it
    starts; [send_loop_fuel] shows that this is always enough. *)
Definition broadcast_message (topic : string) (payload : gmap string json) : M state unit :=
  conns <~ gets active_connections ;;
  if bool_decide (conns = []) then ret tt
  else
    let message := build_message topic payload in
    if bool_decide (size message ≠ 0%nat)
    then send_loop (length conns) message 0
    else ret tt.
End Viewers.

Section Backend.
(** The POST to the chat-completions endpoint followed by
    [response.json()["choices"][0]["message"]["content"]]: the text of the
    reply, or [None] when anything in that expression raises. *)
Variable openai_post : prompt → option string.

Definition chat (p : prompt) : outcome string :=
  match openai_post p with
  | Some content => Return (strip content)
  | None => Raise BackendError
  end.

Definition generate_literary_quote (temp humidity : number) : outcome string :=
  chat (QuotePrompt (JNum temp) (JNum humidity)).

Definition summarize_email (email_content : string) : outcome string :=
  chat (SummaryPrompt email_content).

Definition analyze_email_urgency (email_content : string) : outcome string :=
  chat (UrgencyPrompt email_content).

(** [await asyncio.gather(a, b, c)]: the three results in order, or the
    exception of a call that raised (the earliest in argument order here;
    the handler below treats every exception alike). *)
Definition gather {A B C} (a : outcome A) (b : outcome B) (c : outcome C)
  : M state (A * B * C) :=
  match a, b, c with
  | Return x, Return y, Return z => ret (x, y, z)
  | Raise e, _, _ => raise e
  | _, Raise e, _ => raise e
  | _, _, Raise e => raise e
  end.

(** The body of the 202 response. *)
Definition accepted : string := "Data processed successfully".

Definition process_sensor_data (data : SensorData) : M state string :=
  try_except
    (email <~ get_latest_email ;;
     results <~ gather (generate_literary_quote (temperature data) (humidity data))
                       (summarize_email email)
                       (analyze_email_urgency email) ;;
     let '(quote, summary, urgency) := results in
     publish TOPIC_QUOTE quote ;;;
     publish TOPIC_SUMMARY summary ;;;
     publish TOPIC_URGENCY urgency ;;;
     ret accepted)
    (λ _, raise (HTTPException 500)).
End Backend.

End MainApi.

(** ** Vocabulary of the statements *)

(** The cursor values read by [n] successive calls on a pool of [s] entries,
    starting at [c]. *)
Fixpoint cycle (s c : Z) (n : nat) : list Z :=
  match n with
  | O => []
  | S n' => c :: cycle s ((c + 1) `mod` s) n'
  end.

(** Number of calls from cursor [c] up to, not including, the first one that
    reads position [j]. *)
Definition dist (s c j : Z) : Z := if bool_decide (c ≤ j) then j - c else j + s - c.

(** How often the text [e] occurs in a list of returned texts. *)
Definition occurrences (e : string) (out : list string) : Z :=
  Z.of_nat (count_occ String.string_dec out e).

(** The pool entry at position [i]. *)
Definition entry (pool : list string) (i : Z) : string :=
  default "" (pool !! Z.to_nat i).

(** The texts [main.py]'s email source can return, in pool order. *)
Definition main_pool : list string := map Main.format_email Main.mock_emails.

(** [n] calls that started at cursor [c] returned [out] and left the cursor
    at [c']: the calls went round the pool in order, so every entry came up
    [floor (n / size)] or [ceil (n / size)] times, and a full round brings
    the cursor back. *)
Definition cyclic_run (pool : list string) (c : Z) (n : nat)
    (out : list string) (c' : Z) : Prop :=
  let size := Z.of_nat (length pool) in
  length out = n
  ∧ (∀ k : nat, (k < n)%nat →
       out !! k = pool !! Z.to_nat ((c + Z.of_nat k) `mod` size))
  ∧ (∀ e : string, e ∈ pool →
       occurrences e out = Z.of_nat n / size
       ∨ occurrences e out = (Z.of_nat n + size - 1) / size)
  ∧ (n = length pool → c' = c).

(** The three urgency labels. *)
Definition urgency_labels : list string := ["LOW"; "MEDIUM"; "HIGH"].

(** The publish a branch of [main.py]'s handler makes for the result [o] of
    its backend call: one publish of the text when there is a non-empty
    text, none otherwise. *)
Definition pub_if (topic : string) (o : option string) : list (string * string) :=
  if truthy o then [(topic, default "" o)] else [].

(** The payloads that pass the guard of [main.py]'s handler, with the two
    values the handler reads: a JSON object whose [temperature] and
    [humidity] entries are present and not [null]. *)
Definition main_reading (json_loads : string → option json) (payload_str : string)
    : option (json * json) :=
  match json_loads payload_str with
  | Some (JObj fields) =>
      let temp := default JNull (fields !! "temperature") in
      let humidity := default JNull (fields !! "humidity") in
      if Main.is_None temp || Main.is_None humidity then None
      else Some (temp, humidity)
  | _ => None
  end.

(** The publishes made on [topic], oldest first. *)
Definition on_topic (topic : string) (pubs : list (string * string)) : list string :=
  map snd (filter (λ p, fst p = topic) pubs).

(** The states the bus-driven service can be in: it starts in [initial], and
    its state changes through the email source, a publish, or the handling
    of a sensor message (whatever the decoder and the backend answer). *)
Inductive main_reachable : Main.state → Prop :=
  | main_reach_initial : main_reachable Main.initial
  | main_reach_email st o st' :
      main_reachable st → Main.get_latest_email st = (o, st') → main_reachable st'
  | main_reach_publish topic payload st o st' :
      main_reachable st → Main.publish topic payload st = (o, st') → main_reachable st'
  | main_reach_process openai_create json_loads payload_str st o st' :
      main_reachable st →
      Main.process_sensor_data openai_create json_loads payload_str st = (o, st') →
      main_reachable st'.

(** The states the HTTP service can be in: as above, and viewers come and
    go, and events are broadcast to them. *)
Inductive api_reachable : MainApi.state → Prop :=
  | api_reach_initial : api_reachable MainApi.initial
  | api_reach_email st o st' :
      api_reachable st → MainApi.get_latest_email st = (o, st') → api_reachable st'
  | api_reach_publish topic payload st o st' :
      api_reachable st → MainApi.publish topic payload st = (o, st') → api_reachable st'
  | api_reach_connections conns st :
      api_reachable st → api_reachable (MainApi.set_active_connections conns st)
  | api_reach_broadcast send_json_ok topic payload st o st' :
      api_reachable st →
      MainApi.broadcast_message send_json_ok topic payload st = (o, st') →
      api_reachable st'
  | api_reach_process openai_post data st o st' :
      api_reachable st →
      MainApi.process_sensor_data openai_post data st = (o, st') →
      api_reachable st'.

(** The text a branch publishes for the result [o] of its backend call. *)
Definition texts (o : option string) : list string :=
  if truthy o then [default "" o] else [].

(** What the specification calls a malformed payload: text that is not JSON, or a
    document in which [temperature] or [humidity] is missing or is not a
    number. *)
Definition is_number (v : json) : bool :=
  match v with JNum _ => true | _ => false end.

Definition well_formed (doc : option json) : bool :=
  match doc with
  | Some (JObj fields) =>
      match fields !! "temperature", fields !! "humidity" with
      | Some temp, Some humidity => is_number temp && is_number humidity
      | _, _ => false
      end
  | _ => false
  end.

(** A field of a viewer event that holds something else than the empty
    text. *)
Definition field_nonempty (message : gmap string json) (key : string) : Prop :=
  ∃ v, message !! key = Some v ∧ v ≠ JStr "".

Definition is_display_message (message : gmap string json) : Prop :=
  message !! "type" = Some (JStr "display_message").

(** Sample collaborators for the concrete runs below. *)

(** A decoder that reads the document [doc] out of the payload at hand. *)
Definition decoder_of (doc : option json) : string → option json := λ _, doc.

(** [{"temperature": 25.5, "humidity": 60.0}] *)
Definition reading_doc : json :=
  JObj (<[ "temperature" := JNum (Decimal 255 (-1)) ]>
          {[ "humidity" := JNum (Decimal 600 (-1)) ]}).

(** [{"temperature": "hot", "humidity": "humid"}] *)
Definition words_doc : json :=
  JObj (<[ "temperature" := JStr "hot" ]> {[ "humidity" := JStr "humid" ]}).

(** A backend of [main.py] that answers every request with [reply], and one
    whose every call fails. *)
Definition main_backend_says (reply : string) : prompt → Z → option string :=
  λ _ _, Some reply.

Definition main_backend_down : prompt → Z → option string := λ _ _, None.

(** A backend of [main.py] that answers all but the summary request. *)
Definition main_backend_no_summary (reply : string) : prompt → Z → option string :=
  λ p _, match p with SummaryPrompt _ => None | _ => Some reply end.

(** A backend of [main_api.py] that answers every request with [reply], and
    one that answers all but the summary request. *)
Definition api_backend_says (reply : string) : prompt → option string :=
  λ _, Some reply.

Definition api_backend_no_summary (reply : string) : prompt → option string :=
  λ p, match p with SummaryPrompt _ => None | _ => Some reply end.

Definition sample_data : MainApi.SensorData :=
  {| MainApi.temperature := Decimal 255 (-1); MainApi.humidity := Decimal 600 (-1);
     MainApi.light_percent := 0; MainApi.nox_percent := 0 |}.

(** The reading of a request as the payload of a sensor event. *)
Definition sensor_payload (data : MainApi.SensorData) : gmap string json :=
  <[ "temperature" := JNum (MainApi.temperature data) ]>
    (<[ "humidity" := JNum (MainApi.humidity data) ]>
       (<[ "light_percent" := JNum (Decimal (MainApi.light_percent data) 0) ]>
          {[ "nox_percent" := JNum (Decimal (MainApi.nox_percent data) 0) ]})).

(** The HTTP service with the viewers [conns] connected. *)
Definition api_with_viewers (conns : list MainApi.WebSocket) : MainApi.state :=
  MainApi.set_active_connections conns MainApi.initial.

(** Sockets that accept everything, and sockets of which only the viewer
    [failing] refuses. *)
Definition all_accept : MainApi.WebSocket → gmap string json → bool := λ _ _, true.

Definition only_refuses (failing : MainApi.WebSocket)
    : MainApi.WebSocket → gmap string json → bool :=
  λ c _, negb (Nat.eqb c failing).

(** How many of the payloads pass the guard of [main.py]'s handler. *)
Definition handled_count (json_loads : string → option json) (payloads : list string)
    : nat :=
  length (filter (λ p, is_Some (main_reading json_loads p)) payloads).

(** The texts a branch of [main.py] publishes for the reply of the backend:
    the reply without the white space around it, unless the call failed or
    nothing is left of the reply. *)
Definition stripped_answer (reply : option string) : list string :=
  match reply with
  | Some content => if String.eqb (strip content) "" then [] else [strip content]
  | None => []
  end.

(** A published text is clean: not empty, and without white space at either
    end. *)
Definition clean (text : string) : Prop := text ≠ "" ∧ strip text = text.

(** ** The email source *)

Section Cyclic.
Variable s : Z.
Hypothesis s_pos : 0 < s.

Lemma next_cursor c :
  0 ≤ c < s → (c + 1) `mod` s = if bool_decide (c + 1 = s) then 0 else c + 1.
Proof.
  intros Hc. case_bool_decide as E.
  - rewrite E. apply Z_mod_same_full.
  - apply Z.mod_small. lia.
Qed.

Lemma next_cursor_range c : 0 ≤ c < s → 0 ≤ (c + 1) `mod` s < s.
Proof. intros _. apply Z.mod_pos_bound. exact s_pos. Qed.

Lemma cycle_length c n : length (cycle s c n) = n.
Proof. revert c. induction n as [|n IH]; intros c; simpl; [done | by rewrite IH]. Qed.

Lemma cycle_lookup c n k :
  0 ≤ c < s → (k < n)%nat →
  cycle s c n !! k = Some ((c + Z.of_nat k) `mod` s).
Proof.
  revert c k. induction n as [|n IH]; intros c k Hc Hk; [lia|].
  destruct k as [|k]; simpl.
  - f_equal. rewrite Z.add_0_r. symmetry. apply Z.mod_small. lia.
  - rewrite IH; [| by apply next_cursor_range | lia].
    f_equal. rewrite Zplus_mod_idemp_l. f_equal. lia.
Qed.

Lemma dist_range c j : 0 ≤ c < s → 0 ≤ j < s → 0 ≤ dist s c j ≤ s - 1.
Proof. intros Hc Hj. unfold dist. case_bool_decide; lia. Qed.

Lemma dist_next c j :
  0 ≤ c < s → 0 ≤ j < s → c ≠ j →
  dist s ((c + 1) `mod` s) j = dist s c j - 1.
Proof.
  intros Hc Hj Hne. rewrite next_cursor by done.
  unfold dist. repeat case_bool_decide; lia.
Qed.

Lemma dist_next_same c : 0 ≤ c < s → dist s ((c + 1) `mod` s) c = s - 1.
Proof.
  intros Hc. rewrite next_cursor by done.
  unfold dist. repeat case_bool_decide; lia.
Qed.

(** The closed form of the count: position [j] is read once every [s]
    calls, the first time after [dist s c j] calls. *)
Lemma cycle_count c j n :
  0 ≤ c < s → 0 ≤ j < s →
  Z.of_nat (count_occ Z.eq_dec (cycle s c n) j)
  = (Z.of_nat n + s - 1 - dist s c j) / s.
Proof.
  revert c. induction n as [|n IH]; intros c Hc Hj.
  - simpl. symmetry. apply Z.div_small.
    pose proof (dist_range c j Hc Hj). lia.
  - cbn [cycle count_occ]. destruct (Z.eq_dec c j) as [->|Hne].
    + rewrite Nat2Z.inj_succ, IH by (by apply next_cursor_range || done).
      rewrite dist_next_same by done.
      replace (dist s j j) with 0 by (unfold dist; case_bool_decide; lia).
      replace (Z.of_nat (S n) + s - 1 - 0) with (Z.of_nat n + 1 * s) by lia.
      rewrite Z.div_add by lia.
      replace (Z.of_nat n + s - 1 - (s - 1)) with (Z.of_nat n) by lia. lia.
    + rewrite IH by (by apply next_cursor_range || done).
      rewrite dist_next by done. f_equal. lia.
Qed.

(** Hence every position is read [floor (n/s)] or [ceil (n/s)] times. *)
Lemma cycle_count_floor_ceil c j n :
  0 ≤ c < s → 0 ≤ j < s →
  let k := Z.of_nat (count_occ Z.eq_dec (cycle s c n) j) in
  k = Z.of_nat n / s ∨ k = (Z.of_nat n + s - 1) / s.
Proof.
  intros Hc Hj k. subst k. rewrite cycle_count by done.
  pose proof (dist_range c j Hc Hj) as Hd.
  assert (Z.of_nat n / s ≤ (Z.of_nat n + s - 1 - dist s c j) / s) as H1
    by (apply Z.div_le_mono; lia).
  assert ((Z.of_nat n + s - 1 - dist s c j) / s ≤ (Z.of_nat n + s - 1) / s) as H2
    by (apply Z.div_le_mono; lia).
  assert ((Z.of_nat n + s - 1) / s ≤ Z.of_nat n / s + 1) as H3.
  { rewrite <- (Z.div_add _ 1 s) by lia. apply Z.div_le_mono; lia. }
  lia.
Qed.

Lemma cycle_range c n i : 0 ≤ c < s → i ∈ cycle s c n → 0 ≤ i < s.
Proof.
  revert c. induction n as [|n IH]; intros c Hc Hi; simpl in Hi.
  - by apply elem_of_nil in Hi.
  - apply elem_of_cons in Hi as [->|Hi]; [done|].
    apply (IH _ (next_cursor_range c Hc) Hi).
Qed.
End Cyclic.

Lemma py_index_in_range {A} (l : list A) (i : Z) :
  0 ≤ i < Z.of_nat (length l) → py_index l i = l !! Z.to_nat i.
Proof. intros Hi. unfold py_index. by rewrite bool_decide_eq_true_2 by lia. Qed.

Section PoolRun.
Variable pool : list string.
Hypothesis pool_nodup : NoDup pool.
Hypothesis pool_nonempty : (0 < length pool)%nat.

Local Abbreviation size := (Z.of_nat (length pool)).

Lemma entry_lookup i : 0 ≤ i < size → pool !! Z.to_nat i = Some (entry pool i).
Proof.
  intros Hi. unfold entry.
  destruct (lookup_lt_is_Some_2 pool (Z.to_nat i)) as [e He]; [lia|].
  by rewrite He.
Qed.

Lemma entry_inj i j :
  0 ≤ i < size → 0 ≤ j < size → entry pool i = entry pool j → i = j.
Proof.
  intros Hi Hj E.
  pose proof (entry_lookup i Hi) as Li. pose proof (entry_lookup j Hj) as Lj.
  rewrite E in Li.
  pose proof (NoDup_lookup pool _ _ _ pool_nodup Li Lj). lia.
Qed.

Lemma count_map_entry (l : list Z) j :
  (∀ i, i ∈ l → 0 ≤ i < size) → 0 ≤ j < size →
  count_occ String.string_dec (map (entry pool) l) (entry pool j)
  = count_occ Z.eq_dec l j.
Proof.
  intros Hl Hj. induction l as [|i l IH]; [done|]. simpl.
  assert (0 ≤ i < size) as Hi by (apply Hl; left).
  rewrite IH by (intros i' Hi'; apply Hl; by right).
  destruct (String.string_dec (entry pool i) (entry pool j)) as [E|E],
           (Z.eq_dec i j) as [E'|E']; try done.
  - by apply entry_inj in E.
  - by subst.
Qed.

(** The run that reads the cursor values [cycle size c n] is cyclic. *)
Lemma cyclic_run_cycle c n :
  0 ≤ c < size →
  cyclic_run pool c n (map (entry pool) (cycle size c n)) ((c + Z.of_nat n) `mod` size).
Proof.
  intros Hc. assert (0 < size) as Hs by lia.
  unfold cyclic_run. cbn zeta. split_and!.
  - by rewrite length_map, cycle_length.
  - intros k Hk. rewrite list_lookup_fmap, (cycle_lookup size Hs) by done.
    simpl. rewrite entry_lookup; [done|]. by apply Z.mod_pos_bound.
  - intros e He. apply list_elem_of_lookup in He as [i He].
    pose proof (lookup_lt_Some _ _ _ He) as Hi.
    assert (e = entry pool (Z.of_nat i)) as ->.
    { unfold entry. by rewrite Nat2Z.id, He. }
    unfold occurrences. rewrite count_map_entry.
    + apply (cycle_count_floor_ceil size Hs); [done | lia].
    + intros i'. by apply cycle_range.
    + lia.
  - intros ->. rewrite <- (Z.mul_1_l size) at 1.
    rewrite Z.mod_add by lia. apply Z.mod_small. done.
Qed.
End PoolRun.

Lemma main_pool_nodup : NoDup main_pool.
Proof. apply (bool_decide_unpack _). vm_compute. exact I. Qed.

Lemma api_pool_nodup : NoDup MainApi.MOCK_EMAILS.
Proof. apply (bool_decide_unpack _). vm_compute. exact I. Qed.

(** One call of [main.py]'s email source, cursor in range. *)
Lemma main_get_latest_email_spec (st : Main.state) :
  0 ≤ Main.email_index st < 3 →
  Main.get_latest_email st
  = (Return (entry main_pool (Main.email_index st)),
     Main.set_email_index ((Main.email_index st + 1) `mod` 3) st).
Proof.
  destruct st as [i pub]. simpl. intros Hi.
  assert (i = 0 ∨ i = 1 ∨ i = 2) as [-> | [-> | ->]] by lia; reflexivity.
Qed.

(** One call of [main_api.py]'s email source, cursor in range. *)
Lemma api_get_latest_email_spec (st : MainApi.state) :
  0 ≤ MainApi.current_email_index st < 4 →
  MainApi.get_latest_email st
  = (Return (entry MainApi.MOCK_EMAILS (MainApi.current_email_index st)),
     MainApi.set_current_email_index ((MainApi.current_email_index st + 1) `mod` 4) st).
Proof.
  destruct st as [conns i pub dl]. simpl. intros Hi.
  assert (i = 0 ∨ i = 1 ∨ i = 2 ∨ i = 3) as [-> | [-> | [-> | ->]]] by lia; reflexivity.
Qed.

Lemma main_fetch_many_spec (n : nat) (st : Main.state) :
  0 ≤ Main.email_index st < 3 →
  Main.fetch_many n st
  = (Return (map (entry main_pool) (cycle 3 (Main.email_index st) n)),
     Main.set_email_index ((Main.email_index st + Z.of_nat n) `mod` 3) st).
Proof.
  revert st. induction n as [|n IH]; intros st Hc.
  - destruct st as [i pub]. simpl in *. unfold ret, Main.set_email_index. simpl.
    by rewrite Z.add_0_r, Z.mod_small.
  - cbn [Main.fetch_many]. unfold bind at 1.
    rewrite main_get_latest_email_spec by done.
    unfold bind at 1. rewrite IH by (simpl; by apply Z.mod_pos_bound).
    unfold ret. destruct st as [i pub]. simpl. unfold Main.set_email_index. simpl.
    replace (i + Z.of_nat (S n)) with (i + 1 + Z.of_nat n) by lia.
    by rewrite Zplus_mod_idemp_l.
Qed.

Lemma api_fetch_many_spec (n : nat) (st : MainApi.state) :
  0 ≤ MainApi.current_email_index st < 4 →
  MainApi.fetch_many n st
  = (Return (map (entry MainApi.MOCK_EMAILS) (cycle 4 (MainApi.current_email_index st) n)),
     MainApi.set_current_email_index
       ((MainApi.current_email_index st + Z.of_nat n) `mod` 4) st).
Proof.
  revert st. induction n as [|n IH]; intros st Hc.
  - destruct st as [conns i pub dl]. simpl in *.
    unfold ret, MainApi.set_current_email_index. simpl.
    by rewrite Z.add_0_r, Z.mod_small.
  - cbn [MainApi.fetch_many]. unfold bind at 1.
    rewrite api_get_latest_email_spec by done.
    unfold bind at 1. rewrite IH by (simpl; by apply Z.mod_pos_bound).
    unfold ret. destruct st as [conns i pub dl]. simpl.
    unfold MainApi.set_current_email_index. simpl.
    replace (i + Z.of_nat (S n)) with (i + 1 + Z.of_nat n) by lia.
    by rewrite Zplus_mod_idemp_l.
Qed.

(** C8. From any cursor position inside the pool, [n] successive calls of
    the email source return the pool entries in cyclic order: the call
    number [k] returns the entry at position [(cursor + k) mod size], so
    every entry comes up [floor (n / size)] or [ceil (n / size)] times, and
    after [size] calls the cursor is back where it started. This holds for
    the source of [main.py] (3 entries) and of [main_api.py] (4 entries). *)
Theorem email_source_cyclic :
  (∀ (st : Main.state) (n : nat),
     0 ≤ Main.email_index st < Z.of_nat (length Main.mock_emails) →
     ∃ out st', Main.fetch_many n st = (Return out, st')
       ∧ cyclic_run main_pool (Main.email_index st) n out (Main.email_index st'))
  ∧ (∀ (st : MainApi.state) (n : nat),
     0 ≤ MainApi.current_email_index st < Z.of_nat (length MainApi.MOCK_EMAILS) →
     ∃ out st', MainApi.fetch_many n st = (Return out, st')
       ∧ cyclic_run MainApi.MOCK_EMAILS (MainApi.current_email_index st) n out
           (MainApi.current_email_index st')).
Proof.
  split; intros st n Hc; simpl in Hc.
  - eexists _, _. split; [by apply main_fetch_many_spec|].
    apply (cyclic_run_cycle main_pool main_pool_nodup); simpl; lia.
  - eexists _, _. split; [by apply api_fetch_many_spec|].
    apply (cyclic_run_cycle MainApi.MOCK_EMAILS api_pool_nodup); simpl; lia.
Qed.

(** C8, at a concrete run: seven calls from the initial state of each
    service. *)
Lemma email_source_cyclic_witness :
  (∃ out st', Main.fetch_many 7 Main.initial = (Return out, st')
     ∧ cyclic_run main_pool 0 7 out (Main.email_index st'))
  ∧ (∃ out st', MainApi.fetch_many 7 MainApi.initial = (Return out, st')
     ∧ cyclic_run MainApi.MOCK_EMAILS 0 7 out (MainApi.current_email_index st')).
Proof.
  split.
  - apply (proj1 email_source_cyclic Main.initial 7%nat). simpl. lia.
  - apply (proj2 email_source_cyclic MainApi.initial 7%nat). simpl. lia.
Defined.

(** ** Urgency classification *)

Section MainBackend.
Variable openai_create : prompt → Z → option string.
Variable json_loads : string → option json.

Lemma main_urgency_label email_content :
  Main.analyze_email_urgency openai_create email_content ∈ urgency_labels.
Proof.
  unfold Main.analyze_email_urgency.
  destruct (Main.call_openai_api _ _ _) as [u|]; [|by left].
  destruct (truthy (Some u) && bool_decide _) eqn:E; [|by left].
  apply andb_true_iff in E as [_ E]. by apply bool_decide_eq_true in E.
Qed.

Lemma main_urgency_truthy email_content :
  truthy (Some (Main.analyze_email_urgency openai_create email_content)) = true.
Proof.
  pose proof (main_urgency_label email_content) as H.
  unfold urgency_labels in H. set_unfold in H.
  by destruct H as [-> | [-> | [-> | []]]].
Qed.

(** A payload that does not pass the guard is dropped: nothing changes. *)
Lemma main_process_dropped payload_str st :
  main_reading json_loads payload_str = None →
  Main.process_sensor_data openai_create json_loads payload_str st = (Return tt, st).
Proof.
  unfold main_reading, Main.process_sensor_data, try_except, bind.
  destruct (json_loads payload_str) as [[| | | | |fields]|]; try done.
  simpl. unfold ret. by destruct (_ || _).
Qed.

(** A payload that passes the guard, cursor in range: the quote branch,
    the email fetch, the summary branch and the urgency branch, in this
    order. *)
Lemma main_process_handled payload_str temp humidity st :
  main_reading json_loads payload_str = Some (temp, humidity) →
  0 ≤ Main.email_index st < 3 →
  let email_content := entry main_pool (Main.email_index st) in
  Main.process_sensor_data openai_create json_loads payload_str st
  = (Return tt,
     {| Main.email_index := (Main.email_index st + 1) `mod` 3;
        Main.published :=
          Main.published st
          ++ pub_if TOPIC_DISPLAY_QUOTE
               (Main.generate_literary_quote openai_create temp humidity)
          ++ pub_if TOPIC_DISPLAY_SUMMARY
               (Main.summarize_email openai_create email_content)
          ++ [(TOPIC_URGENCY_LED,
               Main.analyze_email_urgency openai_create email_content)] |}).
Proof.
  intros Hr Hc email_content.
  unfold main_reading in Hr. unfold Main.process_sensor_data, try_except.
  destruct (json_loads payload_str) as [[| | | | |fields]|]; try done.
  unfold bind at 1. unfold ret at 1. unfold bind at 1. simpl.
  unfold bind at 1. simpl.
  destruct (_ || _); [done|]. injection Hr as <- <-.
  set (q := Main.generate_literary_quote _ _ _).
  unfold bind at 1.
  assert (∀ topic o st0,
    when (truthy o) (Main.publish topic (default "" o)) st0
    = (Return tt, {| Main.email_index := Main.email_index st0;
                     Main.published := Main.published st0 ++ pub_if topic o |}))
    as Hwhen.
  { intros topic o [i0 pub0]. unfold when, pub_if.
    destruct (truthy o); simpl; [done|]. unfold ret. by rewrite app_nil_r. }
  rewrite Hwhen. unfold bind at 1.
  rewrite main_get_latest_email_spec by done.
  unfold bind at 1. rewrite Hwhen.
  cbn [Main.email_index Main.published Main.set_email_index].
  fold email_content.
  pose proof (main_urgency_truthy email_content) as Ht. cbn [truthy] in Ht.
  rewrite Ht. cbn [when].
  unfold Main.publish, modify. cbn [Main.email_index Main.published].
  by rewrite <- !app_assoc.
Qed.
End MainBackend.

(** ** The HTTP endpoint and the broadcast loop: what they leave alone *)

Section ApiBackend.
Variable openai_post : prompt → option string.

(** The endpoint, cursor in range: the email fetch, the three backend
    calls, and either three publishes and the success response, or an
    HTTP 500 and no publish at all. *)
Lemma api_process_spec data st :
  0 ≤ MainApi.current_email_index st < 4 →
  let email := entry MainApi.MOCK_EMAILS (MainApi.current_email_index st) in
  let st1 := MainApi.set_current_email_index
               ((MainApi.current_email_index st + 1) `mod` 4) st in
  MainApi.process_sensor_data openai_post data st
  = match MainApi.generate_literary_quote openai_post
            (MainApi.temperature data) (MainApi.humidity data),
          MainApi.summarize_email openai_post email,
          MainApi.analyze_email_urgency openai_post email with
    | Return quote, Return summary, Return urgency =>
        (Return MainApi.accepted,
         {| MainApi.active_connections := MainApi.active_connections st;
            MainApi.current_email_index := MainApi.current_email_index st1;
            MainApi.published :=
              MainApi.published st
              ++ [(MainApi.TOPIC_QUOTE, quote); (MainApi.TOPIC_SUMMARY, summary);
                  (MainApi.TOPIC_URGENCY, urgency)];
            MainApi.delivered := MainApi.delivered st |})
    | _, _, _ => (Raise (HTTPException 500), st1)
    end.
Proof.
  intros Hc email st1.
  unfold MainApi.process_sensor_data, try_except. unfold bind at 1.
  rewrite api_get_latest_email_spec by done. fold email. fold st1.
  unfold bind at 1.
  destruct (MainApi.generate_literary_quote _ _ _) as [q|eq],
           (MainApi.summarize_email _ _) as [sm|es],
           (MainApi.analyze_email_urgency _ _) as [u|eu]; try reflexivity.
  unfold MainApi.gather, ret, bind, MainApi.publish, modify. simpl.
  by rewrite <- !app_assoc.
Qed.
End ApiBackend.

Section ApiViewers.
Variable send_json_ok : MainApi.WebSocket → gmap string json → bool.

(** One round of the loop body on the viewer [c]. *)
Lemma send_round message c st :
  try_except (MainApi.send_json send_json_ok c message)
    (λ _, modify (λ st0, MainApi.set_active_connections
                           (list_remove c (MainApi.active_connections st0)) st0)) st
  = (Return tt,
     if send_json_ok c message then MainApi.add_delivered c message st
     else MainApi.set_active_connections
            (list_remove c (MainApi.active_connections st)) st).
Proof.
  unfold try_except, MainApi.send_json. by destruct (send_json_ok c message).
Qed.

Lemma send_loop_unfold fuel message i st :
  MainApi.send_loop send_json_ok (S fuel) message i st
  = match MainApi.active_connections st !! i with
    | None => (Return tt, st)
    | Some c =>
        MainApi.send_loop send_json_ok fuel message (S i)
          (if send_json_ok c message then MainApi.add_delivered c message st
           else MainApi.set_active_connections
                  (list_remove c (MainApi.active_connections st)) st)
    end.
Proof.
  cbn [MainApi.send_loop]. unfold bind at 1, gets at 1.
  destruct (MainApi.active_connections st !! i) as [c|]; [|done].
  unfold bind. by rewrite send_round.
Qed.

Lemma send_loop_returns fuel message i st :
  fst (MainApi.send_loop send_json_ok fuel message i st) = Return tt.
Proof.
  revert i st. induction fuel as [|fuel IH]; intros i st; [done|].
  rewrite send_loop_unfold. by destruct (_ !! i).
Qed.

Lemma send_loop_keeps fuel message i st :
  let st' := snd (MainApi.send_loop send_json_ok fuel message i st) in
  MainApi.current_email_index st' = MainApi.current_email_index st
  ∧ MainApi.published st' = MainApi.published st.
Proof.
  revert i st. induction fuel as [|fuel IH]; intros i st; [done|].
  rewrite send_loop_unfold. destruct (_ !! i) as [c|]; [|done].
  cbn zeta in *. destruct (IH (S i)
    (if send_json_ok c message then MainApi.add_delivered c message st
     else MainApi.set_active_connections
            (list_remove c (MainApi.active_connections st)) st)) as [-> ->].
  by destruct (send_json_ok c message).
Qed.

Lemma broadcast_keeps topic payload st :
  let st' := snd (MainApi.broadcast_message send_json_ok topic payload st) in
  MainApi.current_email_index st' = MainApi.current_email_index st
  ∧ MainApi.published st' = MainApi.published st.
Proof.
  unfold MainApi.broadcast_message, bind, gets.
  case_bool_decide; [done|]. case_bool_decide; [|done].
  apply send_loop_keeps.
Qed.
End ApiViewers.

(** ** The cursor invariant *)

Lemma main_reachable_cursor st :
  main_reachable st → 0 ≤ Main.email_index st < 3.
Proof.
  induction 1 as [| st o st' _ IH E | topic payload st o st' _ IH E
                  | openai loads payload st o st' _ IH E].
  - done.
  - rewrite main_get_latest_email_spec in E by done.
    injection E as _ <-. simpl. by apply Z.mod_pos_bound.
  - injection E as _ <-. done.
  - destruct (main_reading loads payload) as [[temp humidity]|] eqn:R.
    + rewrite (main_process_handled openai loads payload temp humidity) in E by done.
      injection E as _ <-. simpl. by apply Z.mod_pos_bound.
    + rewrite main_process_dropped in E by done. by injection E as _ <-.
Qed.

Lemma api_reachable_cursor st :
  api_reachable st → 0 ≤ MainApi.current_email_index st < 4.
Proof.
  induction 1 as [| st o st' _ IH E | topic payload st o st' _ IH E
                  | conns st _ IH
                  | send topic payload st o st' _ IH E
                  | openai data st o st' _ IH E].
  - done.
  - rewrite api_get_latest_email_spec in E by done.
    injection E as _ <-. simpl. by apply Z.mod_pos_bound.
  - injection E as _ <-. done.
  - done.
  - pose proof (broadcast_keeps send topic payload st) as [Hi _].
    rewrite E in Hi. simpl in Hi. by rewrite Hi.
  - rewrite api_process_spec in E by done. cbn zeta in E.
    repeat case_match; injection E as _ <-; simpl; by apply Z.mod_pos_bound.
Qed.

(** C10. The email cursor starts at 0 and is at every moment a position
    inside the pool: in every state either service can reach, the cursor is
    in [0, pool size), so the pool lookup of the email source does not raise
    [IndexError] (the call returns a text), and the call leaves the cursor in
    range again. *)
Theorem email_cursor_in_range :
  (Main.email_index Main.initial = 0
   ∧ ∀ st, main_reachable st →
       0 ≤ Main.email_index st < Z.of_nat (length Main.mock_emails)
       ∧ ∃ text st', Main.get_latest_email st = (Return text, st')
           ∧ 0 ≤ Main.email_index st' < Z.of_nat (length Main.mock_emails))
  ∧ (MainApi.current_email_index MainApi.initial = 0
   ∧ ∀ st, api_reachable st →
       0 ≤ MainApi.current_email_index st < Z.of_nat (length MainApi.MOCK_EMAILS)
       ∧ ∃ text st', MainApi.get_latest_email st = (Return text, st')
           ∧ 0 ≤ MainApi.current_email_index st' < Z.of_nat (length MainApi.MOCK_EMAILS)).
Proof.
  split; (split; [done|]); intros st Hst.
  - pose proof (main_reachable_cursor st Hst) as Hc. split; [done|].
    eexists _, _. split; [by apply main_get_latest_email_spec|].
    simpl. by apply Z.mod_pos_bound.
  - pose proof (api_reachable_cursor st Hst) as Hc. split; [done|].
    eexists _, _. split; [by apply api_get_latest_email_spec|].
    simpl. by apply Z.mod_pos_bound.
Qed.

(** ** The broadcast loop *)

Lemma list_remove_length {A} `{EqDecision A} (x : A) (l : list A) :
  (length (list_remove x l) ≤ length l)%nat.
Proof.
  induction l as [|y l IH]; simpl; [done|]. case_decide; simpl; lia.
Qed.

Lemma list_remove_middle {A} `{EqDecision A} (x : A) (pre post : list A) :
  x ∉ pre → list_remove x (pre ++ x :: post) = pre ++ post.
Proof.
  induction pre as [|y pre IH]; intros Hx; simpl.
  - by rewrite decide_True.
  - apply not_elem_of_cons in Hx as [Hne Hx].
    rewrite decide_False by done. by rewrite IH.
Qed.

Section BroadcastLoop.
Local Open Scope nat_scope.
Variable send_json_ok : MainApi.WebSocket → gmap string json → bool.
Variable message : gmap string json.

Local Abbreviation sent := (map (λ c : MainApi.WebSocket, (c, message))).

(** The loop stops by itself: once the fuel covers the entries from the
    index on, more fuel changes nothing. *)
Lemma send_loop_fuel fuel extra i st :
  length (MainApi.active_connections st) ≤ i + fuel →
  MainApi.send_loop send_json_ok (fuel + extra) message i st
  = MainApi.send_loop send_json_ok fuel message i st.
Proof.
  revert i st. induction fuel as [|fuel IH]; intros i st Hlen.
  - destruct extra as [|extra]; [done|]. simpl plus.
    rewrite send_loop_unfold, lookup_ge_None_2 by lia. done.
  - simpl plus. rewrite !send_loop_unfold.
    destruct (MainApi.active_connections st !! i) as [c|]; [|done].
    apply IH. destruct (send_json_ok c message); simpl; [lia|].
    pose proof (list_remove_length c (MainApi.active_connections st)). lia.
Qed.

(** From index [i] on every send goes through: every viewer from [i] on
    receives the message, and the list is as it was. *)
Lemma send_loop_all_ok fuel i st :
  (∀ c, c ∈ drop i (MainApi.active_connections st) → send_json_ok c message = true) →
  length (MainApi.active_connections st) ≤ i + fuel →
  MainApi.active_connections (snd (MainApi.send_loop send_json_ok fuel message i st))
  = MainApi.active_connections st
  ∧ MainApi.delivered (snd (MainApi.send_loop send_json_ok fuel message i st))
    = MainApi.delivered st ++ sent (drop i (MainApi.active_connections st)).
Proof.
  revert i st. induction fuel as [|fuel IH]; intros i st Hok Hlen.
  - simpl. rewrite drop_ge by lia. by rewrite app_nil_r.
  - rewrite send_loop_unfold.
    destruct (MainApi.active_connections st !! i) as [c|] eqn:E.
    + rewrite (drop_S _ _ _ E) in Hok |- *.
      rewrite Hok by left.
      destruct (IH (S i) (MainApi.add_delivered c message st)) as [-> ->].
      * intros c' Hc'. apply Hok. by right.
      * simpl. lia.
      * simpl. by rewrite <- app_assoc.
    + apply lookup_ge_None in E. simpl. rewrite drop_ge by lia.
      by rewrite app_nil_r.
Qed.

(** Exactly one entry, [failing], refuses the message. The viewers before
    it receive the message; [failing] is removed, which moves the later
    entries one place down under the iterator, so the entry right after
    [failing] is never visited; the ones after that receive the message. *)
Lemma send_loop_one_failure fuel i st pre failing post :
  MainApi.active_connections st = pre ++ failing :: post →
  NoDup (pre ++ failing :: post) →
  send_json_ok failing message = false →
  (∀ c, c ∈ pre ++ post → send_json_ok c message = true) →
  i ≤ length pre →
  length (MainApi.active_connections st) ≤ i + fuel →
  MainApi.active_connections (snd (MainApi.send_loop send_json_ok fuel message i st))
  = pre ++ post
  ∧ MainApi.delivered (snd (MainApi.send_loop send_json_ok fuel message i st))
    = MainApi.delivered st ++ sent (drop i pre) ++ sent (drop 1 post).
Proof.
  intros Hconns Hnd Hfail Hok.
  revert i st Hconns. induction fuel as [|fuel IH]; intros i st Hconns Hi Hlen.
  - rewrite Hconns, length_app in Hlen. simpl in Hlen. lia.
  - rewrite send_loop_unfold, Hconns.
    destruct (decide (i = length pre)) as [->|Hne].
    + rewrite list_lookup_middle by done. rewrite Hfail.
      apply NoDup_app in Hnd as (_ & Hpre & _).
      rewrite list_remove_middle by (intros Hin; apply (Hpre _ Hin); left).
      destruct (send_loop_all_ok fuel (S (length pre))
                  (MainApi.set_active_connections (pre ++ post) st)) as [-> ->].
      * intros c Hc. apply Hok. simpl in Hc. by apply subseteq_drop in Hc.
      * simpl. rewrite Hconns in Hlen. rewrite !length_app in *. simpl in Hlen. lia.
      * simpl. split; [done|]. rewrite (drop_ge pre) by lia. simpl. do 2 f_equal.
        rewrite drop_app_ge by lia. f_equal. lia.
    + assert (i < length pre) as Hlt by lia.
      destruct (lookup_lt_is_Some_2 pre i Hlt) as [c Hc].
      rewrite lookup_app_l, Hc by done.
      rewrite Hok by (apply elem_of_app; left; by eapply list_elem_of_lookup_2).
      destruct (IH (S i) (MainApi.add_delivered c message st)) as [-> ->];
        [done | lia | simpl; lia |].
      split; [done|]. simpl. rewrite (drop_S _ _ _ Hc). simpl.
      by rewrite <- app_assoc.
Qed.
End BroadcastLoop.

(** C10, at concrete states: the initial state of each service, and the
    state after one call of the email source. *)
Lemma email_cursor_in_range_witness :
  (0 ≤ Main.email_index Main.initial < 3
   ∧ ∃ text st', Main.get_latest_email Main.initial = (Return text, st')
       ∧ 0 ≤ Main.email_index st' < 3)
  ∧ (0 ≤ MainApi.current_email_index (snd (MainApi.get_latest_email MainApi.initial)) < 4
   ∧ ∃ text st',
       MainApi.get_latest_email (snd (MainApi.get_latest_email MainApi.initial))
       = (Return text, st')
       ∧ 0 ≤ MainApi.current_email_index st' < 4).
Proof.
  split.
  - apply (proj2 (proj1 email_cursor_in_range) Main.initial). constructor.
  - apply (proj2 (proj2 email_cursor_in_range)
             (snd (MainApi.get_latest_email MainApi.initial))).
    apply (api_reach_email MainApi.initial
             (fst (MainApi.get_latest_email MainApi.initial))).
    + constructor.
    + reflexivity.
Defined.

(** ** Topics *)

Lemma on_topic_app topic pubs1 pubs2 :
  on_topic topic (pubs1 ++ pubs2) = on_topic topic pubs1 ++ on_topic topic pubs2.
Proof. unfold on_topic. by rewrite filter_app, map_app. Qed.

Lemma on_topic_pub_if_same topic o : on_topic topic (pub_if topic o) = texts o.
Proof.
  unfold on_topic, pub_if, texts. destruct (truthy o); [|done].
  rewrite filter_cons_True by done. done.
Qed.

Lemma on_topic_pub_if_other topic topic' o :
  topic' ≠ topic → on_topic topic (pub_if topic' o) = [].
Proof.
  intros Hne. unfold on_topic, pub_if. destruct (truthy o); [|done].
  rewrite filter_cons_False by done. done.
Qed.

Lemma on_topic_one_same topic payload : on_topic topic [(topic, payload)] = [payload].
Proof. unfold on_topic. rewrite filter_cons_True by done. done. Qed.

Lemma on_topic_one_other topic topic' payload :
  topic' ≠ topic → on_topic topic [(topic', payload)] = [].
Proof. intros Hne. unfold on_topic. rewrite filter_cons_False by done. done. Qed.

(** ** Urgency: what is returned and what is published *)

Example strip_then_upper : upper (strip "  high ") = "HIGH".
Proof. reflexivity. Qed.

Example main_urgency_matching_answer :
  Main.analyze_email_urgency (main_backend_says " Medium ") "Dinner?" = "MEDIUM".
Proof. reflexivity. Qed.

Example main_urgency_free_text :
  Main.analyze_email_urgency (main_backend_says "Medium urgency") "Dinner?" = "LOW".
Proof. reflexivity. Qed.

Example main_urgency_failed_call :
  Main.analyze_email_urgency main_backend_down "Dinner?" = "LOW".
Proof. reflexivity. Qed.

Lemma main_urgency_value openai_create email_content :
  Main.analyze_email_urgency openai_create email_content
  = match Main.call_openai_api openai_create (UrgencyPrompt email_content) 5 with
    | Some reply => if bool_decide (upper reply ∈ urgency_labels) then upper reply else "LOW"
    | None => "LOW"
    end.
Proof.
  unfold Main.analyze_email_urgency.
  destruct (Main.call_openai_api _ _ _) as [reply|]; [|done].
  fold urgency_labels. case_bool_decide as E; [|by rewrite andb_false_r].
  rewrite andb_true_r. destruct reply as [|a reply]; [|done].
  exfalso. unfold urgency_labels in E. set_unfold in E.
  by destruct E as [E | [E | [E | []]]].
Qed.

(** C3. The urgency classification of [main.py] returns one of LOW, MEDIUM
    and HIGH for every backend answer: the answer in upper case when that is
    one of the three labels, LOW otherwise (also when the call failed). The
    classification of [main_api.py], whose docstring promises the same,
    returns the backend's text as it is: on the answer [Medium urgency] it
    returns that text, and the endpoint publishes it on the urgency topic. *)
Theorem urgency_normalized_in_main_not_in_api :
  (∀ openai_create email_content,
     (Main.analyze_email_urgency openai_create email_content ∈ urgency_labels)
     ∧ Main.analyze_email_urgency openai_create email_content
       = match Main.call_openai_api openai_create (UrgencyPrompt email_content) 5 with
         | Some reply =>
             if bool_decide (upper reply ∈ urgency_labels) then upper reply else "LOW"
         | None => "LOW"
         end)
  ∧ (∀ email_content,
       MainApi.analyze_email_urgency (api_backend_says "Medium urgency") email_content
       = Return "Medium urgency")
  ∧ ("Medium urgency" ∉ urgency_labels)
  ∧ on_topic MainApi.TOPIC_URGENCY
      (MainApi.published
         (snd (MainApi.process_sensor_data (api_backend_says "Medium urgency")
                 sample_data MainApi.initial)))
    = ["Medium urgency"].
Proof.
  split_and!.
  - intros openai email. split; [apply main_urgency_label | apply main_urgency_value].
  - done.
  - unfold urgency_labels. set_unfold. by intros [E | [E | [E | []]]].
  - by vm_compute.
Qed.

(** C4, as stated, fails: with a backend whose every call fails, so that
    the urgency call returns no text, the handling of a valid reading still
    publishes on the urgency topic, namely LOW. *)
Lemma urgency_failure_still_publishes :
  Main.call_openai_api main_backend_down (UrgencyPrompt (entry main_pool 0)) 5 = None
  ∧ on_topic TOPIC_URGENCY_LED
      (Main.published
         (snd (Main.process_sensor_data main_backend_down
                 (decoder_of (Some reading_doc)) "reading" Main.initial)))
    = ["LOW"].
Proof. split; by vm_compute. Qed.

(** C4, amended. Every handled reading makes exactly one publish on the
    urgency topic, and its value is one of the three labels. The value is
    LOW when the urgency call fails outright (raises or returns no text) as
    well as when the call returns a text outside LOW, MEDIUM, HIGH; it is
    the upper-cased text otherwise. *)
Theorem urgency_published_every_cycle
    openai_create json_loads payload_str temp humidity st :
  main_reading json_loads payload_str = Some (temp, humidity) →
  0 ≤ Main.email_index st < 3 →
  on_topic TOPIC_URGENCY_LED
    (Main.published
       (snd (Main.process_sensor_data openai_create json_loads payload_str st)))
  = on_topic TOPIC_URGENCY_LED (Main.published st)
    ++ [match Main.call_openai_api openai_create
                (UrgencyPrompt (entry main_pool (Main.email_index st))) 5 with
        | Some reply =>
            if bool_decide (upper reply ∈ urgency_labels) then upper reply else "LOW"
        | None => "LOW"
        end]
  ∧ Main.analyze_email_urgency openai_create (entry main_pool (Main.email_index st))
    ∈ urgency_labels.
Proof.
  intros Hr Hc.
  rewrite (main_process_handled openai_create json_loads payload_str temp humidity)
    by done.
  cbn [snd Main.published]. rewrite !on_topic_app.
  rewrite !on_topic_pub_if_other by done. rewrite on_topic_one_same.
  rewrite main_urgency_value. split; [done|].
  rewrite <- main_urgency_value. apply main_urgency_label.
Qed.

Lemma urgency_published_every_cycle_witness :
  on_topic TOPIC_URGENCY_LED
    (Main.published
       (snd (Main.process_sensor_data main_backend_down
               (decoder_of (Some reading_doc)) "reading" Main.initial)))
  = on_topic TOPIC_URGENCY_LED (Main.published Main.initial)
    ++ [match Main.call_openai_api main_backend_down
                (UrgencyPrompt (entry main_pool (Main.email_index Main.initial))) 5 with
        | Some reply =>
            if bool_decide (upper reply ∈ urgency_labels) then upper reply else "LOW"
        | None => "LOW"
        end]
  ∧ Main.analyze_email_urgency main_backend_down
      (entry main_pool (Main.email_index Main.initial))
    ∈ urgency_labels.
Proof.
  apply (urgency_published_every_cycle main_backend_down
           (decoder_of (Some reading_doc)) "reading"
           (JNum (Decimal 255 (-1))) (JNum (Decimal 600 (-1))) Main.initial).
  - vm_compute. reflexivity.
  - simpl. lia.
Defined.

(** ** Failure isolation *)

(** C1, as stated, fails on the HTTP endpoint: the quote call succeeds, the
    summary call raises, and the quote topic receives no publish. *)
Lemma api_quote_lost_with_summary :
  MainApi.generate_literary_quote (api_backend_no_summary "A quiet room.")
    (MainApi.temperature sample_data) (MainApi.humidity sample_data)
  = Return "A quiet room."
  ∧ MainApi.summarize_email (api_backend_no_summary "A quiet room.")
      (entry MainApi.MOCK_EMAILS 0)
    = Raise BackendError
  ∧ on_topic MainApi.TOPIC_QUOTE
      (MainApi.published
         (snd (MainApi.process_sensor_data (api_backend_no_summary "A quiet room.")
                 sample_data MainApi.initial)))
    = [].
Proof. split_and!; by vm_compute. Qed.

(** C1, amended. In the bus-driven handler of [main.py] every branch stands
    alone: the handling of a reading returns normally, the quote topic
    receives exactly one publish when the quote call returned a non-empty
    text and none otherwise, and likewise the summary topic for the summary
    call, whatever the other calls did. In the HTTP endpoint of
    [main_api.py] a failure of any of the three calls ends the request with
    HTTP 500 and nothing is published, the results of the calls that
    succeeded included. *)
Theorem branch_failures_isolated_in_main_only :
  (∀ openai_create json_loads payload_str temp humidity st,
     main_reading json_loads payload_str = Some (temp, humidity) →
     0 ≤ Main.email_index st < 3 →
     let run := Main.process_sensor_data openai_create json_loads payload_str st in
     fst run = Return tt
     ∧ on_topic TOPIC_DISPLAY_QUOTE (Main.published (snd run))
       = on_topic TOPIC_DISPLAY_QUOTE (Main.published st)
         ++ texts (Main.generate_literary_quote openai_create temp humidity)
     ∧ on_topic TOPIC_DISPLAY_SUMMARY (Main.published (snd run))
       = on_topic TOPIC_DISPLAY_SUMMARY (Main.published st)
         ++ texts (Main.summarize_email openai_create
                     (entry main_pool (Main.email_index st))))
  ∧ (∀ openai_post data st e,
     0 ≤ MainApi.current_email_index st < 4 →
     MainApi.generate_literary_quote openai_post
       (MainApi.temperature data) (MainApi.humidity data) = Raise e
     ∨ MainApi.summarize_email openai_post
         (entry MainApi.MOCK_EMAILS (MainApi.current_email_index st)) = Raise e
     ∨ MainApi.analyze_email_urgency openai_post
         (entry MainApi.MOCK_EMAILS (MainApi.current_email_index st)) = Raise e →
     let run := MainApi.process_sensor_data openai_post data st in
     fst run = Raise (HTTPException 500)
     ∧ MainApi.published (snd run) = MainApi.published st).
Proof.
  split.
  - intros openai loads payload temp humidity st Hr Hc run. subst run.
    rewrite (main_process_handled openai loads payload temp humidity) by done.
    cbn [fst snd Main.published]. split; [done|].
    rewrite !on_topic_app, !on_topic_pub_if_same.
    rewrite !on_topic_pub_if_other, !on_topic_one_other by done.
    by rewrite !app_nil_r.
  - intros openai data st e Hc Hfail run. subst run.
    rewrite api_process_spec by done. cbn zeta.
    destruct Hfail as [-> | [-> | ->]]; [done | |]; by repeat case_match.
Qed.

Lemma branch_failures_isolated_in_main_only_witness :
  (let run := Main.process_sensor_data (main_backend_no_summary "A quiet room.")
                (decoder_of (Some reading_doc)) "reading" Main.initial in
   fst run = Return tt
   ∧ on_topic TOPIC_DISPLAY_QUOTE (Main.published (snd run))
     = on_topic TOPIC_DISPLAY_QUOTE (Main.published Main.initial)
       ++ texts (Main.generate_literary_quote (main_backend_no_summary "A quiet room.")
                   (JNum (Decimal 255 (-1))) (JNum (Decimal 600 (-1))))
   ∧ on_topic TOPIC_DISPLAY_SUMMARY (Main.published (snd run))
     = on_topic TOPIC_DISPLAY_SUMMARY (Main.published Main.initial)
       ++ texts (Main.summarize_email (main_backend_no_summary "A quiet room.")
                   (entry main_pool (Main.email_index Main.initial))))
  ∧ (let run := MainApi.process_sensor_data (api_backend_no_summary "A quiet room.")
                  sample_data MainApi.initial in
     fst run = Raise (HTTPException 500)
     ∧ MainApi.published (snd run) = MainApi.published MainApi.initial).
Proof.
  split.
  - apply (proj1 branch_failures_isolated_in_main_only
             (main_backend_no_summary "A quiet room.")
             (decoder_of (Some reading_doc)) "reading"
             (JNum (Decimal 255 (-1))) (JNum (Decimal 600 (-1))) Main.initial).
    + vm_compute. reflexivity.
    + simpl. lia.
  - apply (proj2 branch_failures_isolated_in_main_only
             (api_backend_no_summary "A quiet room.") sample_data MainApi.initial
             BackendError).
    + simpl. lia.
    + right. left. vm_compute. reflexivity.
Defined.

(** The run of the witness, spelled out: one publish on the quote topic,
    none on the summary topic. *)
Example main_quote_without_summary :
  Main.published
    (snd (Main.process_sensor_data (main_backend_no_summary "A quiet room.")
            (decoder_of (Some reading_doc)) "reading" Main.initial))
  = [(TOPIC_DISPLAY_QUOTE, "A quiet room."); (TOPIC_URGENCY_LED, "LOW")].
Proof. by vm_compute. Qed.

(** ** Payloads that are dropped, and one that is not *)

(** C2. The handler of [main.py] drops, without a publish and without an
    error to its caller, every payload that is not JSON, is not a JSON
    object, or has no [temperature] or no [humidity] (or [null] there). It
    does not look at the type of the two values: the payload
    [{"temperature": "hot", "humidity": "humid"}] is malformed (the values
    are not numbers), and the handler runs the three branches on it and
    publishes their results. *)
Theorem non_numeric_reading_not_dropped :
  (∀ openai_create json_loads payload_str st,
     match json_loads payload_str with
     | Some (JObj fields) =>
         fields !! "temperature" = None ∨ fields !! "temperature" = Some JNull
         ∨ fields !! "humidity" = None ∨ fields !! "humidity" = Some JNull
     | _ => True
     end →
     Main.process_sensor_data openai_create json_loads payload_str st = (Return tt, st))
  ∧ well_formed (Some words_doc) = false
  ∧ Main.process_sensor_data (main_backend_says "Still air.")
      (decoder_of (Some words_doc)) "reading" Main.initial
    = (Return tt,
       {| Main.email_index := 1;
          Main.published := [(TOPIC_DISPLAY_QUOTE, "Still air.");
                             (TOPIC_DISPLAY_SUMMARY, "Still air.");
                             (TOPIC_URGENCY_LED, "LOW")] |}).
Proof.
  split_and!; [|by vm_compute..].
  intros openai loads payload st H. apply main_process_dropped.
  unfold main_reading.
  destruct (loads payload) as [[| | | | |fields]|]; try done.
  destruct H as [-> | [-> | [-> | ->]]]; simpl; try done;
    by destruct (Main.is_None _).
Qed.

Lemma non_numeric_reading_not_dropped_witness :
  Main.process_sensor_data (main_backend_says "Still air.")
    (decoder_of (Some (JObj {[ "temperature" := JNum (Decimal 255 (-1)) ]})))
    "reading" Main.initial
  = (Return tt, Main.initial)
  ∧ Main.process_sensor_data (main_backend_says "Still air.")
      (decoder_of None) "reading" Main.initial
    = (Return tt, Main.initial).
Proof.
  split.
  - apply (proj1 non_numeric_reading_not_dropped (main_backend_says "Still air.")
             (decoder_of (Some (JObj {[ "temperature" := JNum (Decimal 255 (-1)) ]})))
             "reading" Main.initial).
    simpl. right. right. left. vm_compute. reflexivity.
  - apply (proj1 non_numeric_reading_not_dropped (main_backend_says "Still air.")
             (decoder_of None) "reading" Main.initial).
    simpl. exact I.
Defined.

(** ** Broadcast with one failing viewer *)

(** C5. In a broadcast in which exactly one viewer's send fails, exactly
    that viewer is removed from the list, and the viewers listed before it
    receive the event. The viewers listed after it do not all receive it:
    the removal happens inside the iteration over the same list, so the
    viewer that stood right after the failing one is passed over in that
    call ([next] below is still registered afterwards and is not among the
    receivers). *)
Theorem broadcast_passes_over_next_viewer
    send_json_ok topic payload st pre failing next post :
  size (MainApi.build_message topic payload) ≠ 0%nat →
  MainApi.active_connections st = pre ++ failing :: next :: post →
  NoDup (pre ++ failing :: next :: post) →
  send_json_ok failing (MainApi.build_message topic payload) = false →
  (∀ c, c ∈ pre ++ next :: post →
        send_json_ok c (MainApi.build_message topic payload) = true) →
  let st' := snd (MainApi.broadcast_message send_json_ok topic payload st) in
  MainApi.active_connections st' = pre ++ next :: post
  ∧ MainApi.delivered st'
    = MainApi.delivered st
      ++ map (λ c, (c, MainApi.build_message topic payload)) (pre ++ post)
  ∧ next ∉ pre ++ post.
Proof.
  intros Hmsg Hconns Hnd Hfail Hok st'. subst st'.
  unfold MainApi.broadcast_message, bind, gets.
  rewrite bool_decide_eq_false_2 by (rewrite Hconns; by destruct pre).
  rewrite bool_decide_eq_true_2 by done.
  destruct (send_loop_one_failure send_json_ok
              (MainApi.build_message topic payload)
              (length (MainApi.active_connections st)) 0%nat st
              pre failing (next :: post)) as [-> ->]; try done; [lia..|].
  split_and!; [done | |].
  - simpl. by rewrite drop_0, map_app.
  - apply NoDup_app in Hnd as (_ & Hpre & Hnd).
    apply NoDup_cons in Hnd as (_ & Hnd). apply NoDup_cons in Hnd as (Hnext & _).
    intros [Hin | Hin]%elem_of_app; [|done].
    apply (Hpre _ Hin). right. left.
Qed.

Lemma broadcast_passes_over_next_viewer_witness :
  let payload : gmap string json := {[ "quote" := JStr "A quiet room." ]} in
  let st' := snd (MainApi.broadcast_message (only_refuses 2%nat) MainApi.TOPIC_QUOTE
                    payload (api_with_viewers [1; 2; 3]%nat)) in
  MainApi.active_connections st' = [1%nat] ++ 3%nat :: []
  ∧ MainApi.delivered st'
    = MainApi.delivered (api_with_viewers [1; 2; 3]%nat)
      ++ map (λ c, (c, MainApi.build_message MainApi.TOPIC_QUOTE payload))
           ([1%nat] ++ [])
  ∧ 3%nat ∉ [1%nat] ++ [].
Proof.
  intros payload.
  apply (broadcast_passes_over_next_viewer (only_refuses 2%nat) MainApi.TOPIC_QUOTE
           payload (api_with_viewers [1; 2; 3]%nat) [1%nat] 2%nat 3%nat []).
  - vm_compute. lia.
  - reflexivity.
  - apply (bool_decide_unpack _). vm_compute. exact I.
  - reflexivity.
  - intros c Hc. set_unfold in Hc. destruct Hc as [-> | [-> | []]]; reflexivity.
Defined.

(** The same run, spelled out: viewer 2 refuses, viewer 3 gets nothing. *)
Example broadcast_three_viewers :
  let st' := snd (MainApi.broadcast_message (only_refuses 2%nat) MainApi.TOPIC_QUOTE
                    {[ "quote" := JStr "A quiet room." ]}
                    (api_with_viewers [1; 2; 3]%nat)) in
  MainApi.active_connections st' = [1; 3]%nat
  ∧ map fst (MainApi.delivered st') = [1%nat].
Proof. by vm_compute. Qed.

(** ** The events a broadcast sends *)

Lemma send_loop_delivered send_json_ok message fuel i st :
  ∃ receivers,
    MainApi.delivered (snd (MainApi.send_loop send_json_ok fuel message i st))
    = MainApi.delivered st ++ map (λ c, (c, message)) receivers.
Proof.
  revert i st. induction fuel as [|fuel IH]; intros i st.
  - exists []. simpl. by rewrite app_nil_r.
  - rewrite send_loop_unfold.
    destruct (MainApi.active_connections st !! i) as [c|];
      [|exists []; simpl; by rewrite app_nil_r].
    destruct (send_json_ok c message).
    + destruct (IH (S i) (MainApi.add_delivered c message st)) as [cs ->].
      exists (c :: cs). simpl. by rewrite <- app_assoc.
    + destruct (IH (S i) (MainApi.set_active_connections
                            (list_remove c (MainApi.active_connections st)) st))
        as [cs ->].
      by exists cs.
Qed.

Lemma broadcast_delivered send_json_ok topic payload st :
  ∃ receivers,
    MainApi.delivered (snd (MainApi.broadcast_message send_json_ok topic payload st))
    = MainApi.delivered st
      ++ map (λ c, (c, MainApi.build_message topic payload)) receivers.
Proof.
  unfold MainApi.broadcast_message, bind, gets.
  case_bool_decide; [exists []; simpl; by rewrite app_nil_r|].
  case_bool_decide; [|exists []; simpl; by rewrite app_nil_r].
  apply send_loop_delivered.
Qed.

Lemma build_message_quote payload :
  MainApi.build_message MainApi.TOPIC_QUOTE payload
  = <[ "type" := JStr "display_message" ]>
      (<[ "quote" := default (JStr "") (payload !! "quote") ]>
         {[ "summary" := JStr "" ]}).
Proof. reflexivity. Qed.

Lemma build_message_summary payload :
  MainApi.build_message MainApi.TOPIC_SUMMARY payload
  = <[ "type" := JStr "display_message" ]>
      (<[ "quote" := JStr "" ]>
         {[ "summary" := default (JStr "") (payload !! "summary") ]}).
Proof. reflexivity. Qed.

(** C9, as stated, fails: a quote event built from a payload that has no
    quote entry is a [display_message] whose two fields are both empty, and
    it is sent to the viewer. *)
Lemma display_message_with_both_fields_empty :
  ∃ message,
    MainApi.delivered
      (snd (MainApi.broadcast_message all_accept MainApi.TOPIC_QUOTE ∅
              (api_with_viewers [1%nat])))
    = [(1%nat, message)]
    ∧ is_display_message message
    ∧ ¬ field_nonempty message "quote"
    ∧ ¬ field_nonempty message "summary".
Proof.
  exists (MainApi.build_message MainApi.TOPIC_QUOTE ∅).
  split_and!.
  - by vm_compute.
  - by vm_compute.
  - intros (v & Hv & Hne). vm_compute in Hv. by injection Hv as <-.
  - intros (v & Hv & Hne). vm_compute in Hv. by injection Hv as <-.
Qed.

(** C9, amended. Every event a broadcast on the quote topic or on the
    summary topic sends is one and the same [display_message]. On the quote
    topic its summary field is the empty text and its quote field is the
    payload's quote entry, or the empty text when the payload has none; on
    the summary topic the reverse. So no such event has both fields
    non-empty, and it has exactly one field non-empty exactly when the
    payload's entry is there and is not the empty text. *)
Theorem display_message_at_most_one_field send_json_ok topic payload st :
  topic = MainApi.TOPIC_QUOTE ∨ topic = MainApi.TOPIC_SUMMARY →
  ∃ receivers message,
    MainApi.delivered (snd (MainApi.broadcast_message send_json_ok topic payload st))
    = MainApi.delivered st ++ map (λ c, (c, message)) receivers
    ∧ is_display_message message
    ∧ message !! "quote"
      = Some (if bool_decide (topic = MainApi.TOPIC_QUOTE)
              then default (JStr "") (payload !! "quote") else JStr "")
    ∧ message !! "summary"
      = Some (if bool_decide (topic = MainApi.TOPIC_QUOTE)
              then JStr "" else default (JStr "") (payload !! "summary"))
    ∧ ¬ (field_nonempty message "quote" ∧ field_nonempty message "summary").
Proof.
  intros Htopic.
  destruct (broadcast_delivered send_json_ok topic payload st) as [receivers Hd].
  exists receivers, (MainApi.build_message topic payload).
  split; [done|]. unfold is_display_message, field_nonempty.
  destruct Htopic as [-> | ->].
  - rewrite build_message_quote. rewrite bool_decide_eq_true_2 by done.
    split_and!; [by simplify_map_eq.. |].
    intros [_ (v & Hv & Hne)]. by simplify_map_eq.
  - rewrite build_message_summary. rewrite bool_decide_eq_false_2 by done.
    split_and!; [by simplify_map_eq.. |].
    intros [(v & Hv & Hne) _]. by simplify_map_eq.
Qed.

Lemma display_message_at_most_one_field_witness :
  ∃ receivers message,
    MainApi.delivered
      (snd (MainApi.broadcast_message all_accept MainApi.TOPIC_SUMMARY
              {[ "summary" := JStr "Server down." ]} (api_with_viewers [1; 2]%nat)))
    = MainApi.delivered (api_with_viewers [1; 2]%nat)
      ++ map (λ c, (c, message)) receivers
    ∧ is_display_message message
    ∧ message !! "quote"
      = Some (if bool_decide (MainApi.TOPIC_SUMMARY = MainApi.TOPIC_QUOTE)
              then default (JStr "")
                     (({[ "summary" := JStr "Server down." ]} : gmap string json)
                        !! "quote")
              else JStr "")
    ∧ message !! "summary"
      = Some (if bool_decide (MainApi.TOPIC_SUMMARY = MainApi.TOPIC_QUOTE)
              then JStr ""
              else default (JStr "")
                     (({[ "summary" := JStr "Server down." ]} : gmap string json)
                        !! "summary"))
    ∧ ¬ (field_nonempty message "quote" ∧ field_nonempty message "summary").
Proof.
  apply (display_message_at_most_one_field all_accept MainApi.TOPIC_SUMMARY
           {[ "summary" := JStr "Server down." ]} (api_with_viewers [1; 2]%nat)).
  right. reflexivity.
Defined.

(** ** The sensor event *)

(** C6. A valid sensor payload is to produce exactly one [sensor_data]
    event for the viewers. The module [main_api.py] has what that takes: the
    viewer list, the registration of viewers, and [broadcast_message] with a
    branch for the sensor topic, which does deliver the reading to a
    connected viewer. But the handler never calls it: for every payload,
    backend and state, handling sends nothing to any viewer and leaves the
    viewer list as it is. With viewer 1 connected and accepting everything,
    the reading of [sample_data] is handled with success and viewer 1 has
    received no event. *)
Theorem sensor_event_never_broadcast :
  (∀ openai_post data st,
     MainApi.delivered (snd (MainApi.process_sensor_data openai_post data st))
     = MainApi.delivered st
     ∧ MainApi.active_connections
         (snd (MainApi.process_sensor_data openai_post data st))
       = MainApi.active_connections st)
  ∧ fst (MainApi.process_sensor_data (api_backend_says "Still air.") sample_data
           (api_with_viewers [1%nat]))
    = Return MainApi.accepted
  ∧ MainApi.delivered
      (snd (MainApi.process_sensor_data (api_backend_says "Still air.") sample_data
              (api_with_viewers [1%nat])))
    = []
  ∧ MainApi.delivered
      (snd (MainApi.broadcast_message all_accept TOPIC_SENSOR_DATA
              (sensor_payload sample_data) (api_with_viewers [1%nat])))
    = [(1%nat, <[ "type" := JStr "sensor_data" ]> (sensor_payload sample_data))].
Proof.
  split_and!; [|by vm_compute..].
  intros openai_post data st.
  unfold MainApi.process_sensor_data, try_except, MainApi.get_latest_email.
  unfold bind, gets, raise, modify, ret, MainApi.gather, MainApi.publish.
  destruct (py_index MainApi.MOCK_EMAILS (MainApi.current_email_index st)) as [email|];
    [|done].
  destruct (MainApi.generate_literary_quote _ _ _) as [q|eq]; [|done].
  destruct (MainApi.summarize_email _ _) as [sm|es]; [|done].
  by destruct (MainApi.analyze_email_urgency _ _) as [u|eu].
Qed.

(** ** The synchronous endpoint *)

(** C7. When the endpoint of [main_api.py] returns its success response,
    the three backend calls have all returned a text, and the three texts
    have been handed to the bus, quote, summary and urgency in this order,
    before the response is returned: they are the last three publishes of
    the state the response comes with. *)
Theorem endpoint_publishes_before_success openai_post data st response st' :
  0 ≤ MainApi.current_email_index st < 4 →
  MainApi.process_sensor_data openai_post data st = (Return response, st') →
  response = MainApi.accepted
  ∧ ∃ quote summary urgency,
      MainApi.generate_literary_quote openai_post
        (MainApi.temperature data) (MainApi.humidity data) = Return quote
      ∧ MainApi.summarize_email openai_post
          (entry MainApi.MOCK_EMAILS (MainApi.current_email_index st)) = Return summary
      ∧ MainApi.analyze_email_urgency openai_post
          (entry MainApi.MOCK_EMAILS (MainApi.current_email_index st)) = Return urgency
      ∧ MainApi.published st'
        = MainApi.published st
          ++ [(MainApi.TOPIC_QUOTE, quote); (MainApi.TOPIC_SUMMARY, summary);
              (MainApi.TOPIC_URGENCY, urgency)].
Proof.
  intros Hc E. rewrite api_process_spec in E by done. cbn zeta in E.
  destruct (MainApi.generate_literary_quote _ _ _) as [q|eq]; [|done].
  destruct (MainApi.summarize_email _ _) as [sm|es]; [|done].
  destruct (MainApi.analyze_email_urgency _ _) as [u|eu]; [|done].
  injection E as <- <-. split; [done|]. by exists q, sm, u.
Qed.

Lemma endpoint_publishes_before_success_witness :
  MainApi.accepted = MainApi.accepted
  ∧ ∃ quote summary urgency,
      MainApi.generate_literary_quote (api_backend_says "Still air.")
        (MainApi.temperature sample_data) (MainApi.humidity sample_data) = Return quote
      ∧ MainApi.summarize_email (api_backend_says "Still air.")
          (entry MainApi.MOCK_EMAILS (MainApi.current_email_index MainApi.initial))
        = Return summary
      ∧ MainApi.analyze_email_urgency (api_backend_says "Still air.")
          (entry MainApi.MOCK_EMAILS (MainApi.current_email_index MainApi.initial))
        = Return urgency
      ∧ MainApi.published
          (snd (MainApi.process_sensor_data (api_backend_says "Still air.")
                  sample_data MainApi.initial))
        = MainApi.published MainApi.initial
          ++ [(MainApi.TOPIC_QUOTE, quote); (MainApi.TOPIC_SUMMARY, summary);
              (MainApi.TOPIC_URGENCY, urgency)].
Proof.
  apply (endpoint_publishes_before_success (api_backend_says "Still air.")
           sample_data MainApi.initial).
  - simpl. lia.
  - vm_compute. reflexivity.
Defined.

(** The endpoint does answer: when the three calls return, the response is
    the success response. *)
Lemma endpoint_succeeds openai_post data st quote summary urgency :
  0 ≤ MainApi.current_email_index st < 4 →
  MainApi.generate_literary_quote openai_post
    (MainApi.temperature data) (MainApi.humidity data) = Return quote →
  MainApi.summarize_email openai_post
    (entry MainApi.MOCK_EMAILS (MainApi.current_email_index st)) = Return summary →
  MainApi.analyze_email_urgency openai_post
    (entry MainApi.MOCK_EMAILS (MainApi.current_email_index st)) = Return urgency →
  fst (MainApi.process_sensor_data openai_post data st) = Return MainApi.accepted.
Proof.
  intros Hc Hq Hs Hu. rewrite api_process_spec by done. cbn zeta.
  by rewrite Hq, Hs, Hu.
Qed.

(** * Further properties of the two services *)

(** ** Text helpers *)

Lemma rstrip_cases a s :
  rstrip (String a s) = "" ∨ rstrip (String a s) = String a (rstrip s).
Proof. cbn [rstrip]. destruct (is_space _); auto. Qed.

Lemma rstrip_idem s : rstrip (rstrip s) = rstrip s.
Proof.
  induction s as [|a s IH]; [done|]. cbn [rstrip].
  destruct (is_space (String a (rstrip s))) eqn:E; [done|].
  cbn [rstrip]. by rewrite IH, E.
Qed.

Lemma lstrip_fixed s : starts_with_space s = false → lstrip s = s.
Proof.
  destruct s as [|a [|b [|c s3]]]; cbn [starts_with_space]; intros H.
  - done.
  - rewrite orb_false_r in H. cbn [lstrip]. by rewrite H.
  - apply orb_false_iff in H as [E1 E2]. rewrite orb_false_r in E2.
    cbn [lstrip]. by rewrite E1, E2.
  - apply orb_false_iff in H as [E1 H]. apply orb_false_iff in H as [E2 E3].
    cbn [lstrip]. by rewrite E1, E2, E3.
Qed.

Lemma lstrip_no_space_upto (n : nat) (s : string) :
  (String.length s ≤ n)%nat → starts_with_space (lstrip s) = false.
Proof.
  revert s. induction n as [|n IH]; intros s Hn.
  - destruct s; [done | simpl in Hn; lia].
  - destruct s as [|a s1]; [done|]. simpl in Hn. cbn [lstrip].
    destruct (space1 a) eqn:E1; [apply IH; lia|].
    destruct s1 as [|b s2]; [cbn; by rewrite E1|]. simpl in Hn.
    destruct (space2 a b) eqn:E2; [apply IH; lia|].
    destruct s2 as [|c s3]; [cbn; by rewrite E1, E2|]. simpl in Hn.
    destruct (space3 a b c) eqn:E3; [apply IH; lia|].
    cbn. by rewrite E1, E2, E3.
Qed.

Lemma lstrip_no_space s : starts_with_space (lstrip s) = false.
Proof. by apply (lstrip_no_space_upto (String.length s)). Qed.

Lemma rstrip_keeps_start s :
  starts_with_space s = false → starts_with_space (rstrip s) = false.
Proof.
  destruct s as [|a s1]; [done|]. intros H.
  destruct (rstrip_cases a s1) as [-> | ->]; [done|].
  destruct s1 as [|b s2]; [done|].
  cbn [starts_with_space] in H.
  apply orb_false_iff in H as [E1 H].
  destruct (rstrip_cases b s2) as [-> | ->]; [cbn; by rewrite E1|].
  destruct s2 as [|c s3]; [cbn [rstrip starts_with_space]; by rewrite E1, H|].
  apply orb_false_iff in H as [E2 E3].
  destruct (rstrip_cases c s3) as [-> | ->];
    cbn [starts_with_space]; by rewrite E1, E2, ?E3.
Qed.

(** What [str.strip] returns has no white space left to strip. *)
Lemma strip_idem s : strip (strip s) = strip s.
Proof.
  unfold strip.
  rewrite (lstrip_fixed (rstrip (lstrip s)))
    by apply rstrip_keeps_start, lstrip_no_space.
  apply rstrip_idem.
Qed.

(** A sharp s becomes two letters; a no-break space, a dotless i and an
    ideographic space are white space and a letter like the others. *)
Example upper_beyond_ascii : upper "straße" = "STRASSE".
Proof. by vm_compute. Qed.

Example strip_beyond_ascii : upper (strip " hıgh　") = "HIGH".
Proof. by vm_compute. Qed.

(** ** The handler of [main.py] in any state *)

Section MainHandler.
Variable openai_create : prompt → Z → option string.
Variable json_loads : string → option json.

(** A payload that passes the guard, whatever the cursor is: when the pool
    lookup raises, the quote branch has already published and the rest of
    the handling is given up. *)
Lemma main_process_any payload_str temp humidity st :
  main_reading json_loads payload_str = Some (temp, humidity) →
  Main.process_sensor_data openai_create json_loads payload_str st
  = match py_index Main.mock_emails (Main.email_index st) with
    | Some email =>
        (Return tt,
         {| Main.email_index := (Main.email_index st + 1) `mod` 3;
            Main.published :=
              Main.published st
              ++ pub_if TOPIC_DISPLAY_QUOTE
                   (Main.generate_literary_quote openai_create temp humidity)
              ++ pub_if TOPIC_DISPLAY_SUMMARY
                   (Main.summarize_email openai_create (Main.format_email email))
              ++ [(TOPIC_URGENCY_LED,
                   Main.analyze_email_urgency openai_create (Main.format_email email))] |})
    | None =>
        (Return tt,
         {| Main.email_index := Main.email_index st;
            Main.published :=
              Main.published st
              ++ pub_if TOPIC_DISPLAY_QUOTE
                   (Main.generate_literary_quote openai_create temp humidity) |})
    end.
Proof.
  intros Hr.
  unfold main_reading in Hr. unfold Main.process_sensor_data, try_except.
  destruct (json_loads payload_str) as [[| | | | |fields]|]; try done.
  unfold bind at 1. unfold ret at 1. unfold bind at 1. simpl.
  unfold bind at 1. simpl.
  destruct (_ || _); [done|]. injection Hr as <- <-.
  set (q := Main.generate_literary_quote _ _ _).
  unfold bind at 1.
  assert (∀ topic o st0,
    when (truthy o) (Main.publish topic (default "" o)) st0
    = (Return tt, {| Main.email_index := Main.email_index st0;
                     Main.published := Main.published st0 ++ pub_if topic o |}))
    as Hwhen.
  { intros topic o [i0 pub0]. unfold when, pub_if.
    destruct (truthy o); simpl; [done|]. unfold ret. by rewrite app_nil_r. }
  rewrite Hwhen. unfold bind at 1.
  unfold Main.get_latest_email. unfold bind at 1. unfold gets at 1.
  cbn [Main.email_index Main.published].
  destruct (py_index Main.mock_emails (Main.email_index st)) as [email|]; [|done].
  unfold bind at 1. unfold modify at 1. unfold ret at 1.
  unfold bind at 1. rewrite Hwhen.
  cbn [Main.email_index Main.published Main.set_email_index].
  pose proof (main_urgency_truthy openai_create (Main.format_email email)) as Ht.
  cbn [truthy] in Ht. rewrite Ht. cbn [when].
  unfold Main.publish, modify. cbn [Main.email_index Main.published].
  by rewrite <- !app_assoc.
Qed.

Lemma pub_if_length topic o : (length (pub_if topic o) ≤ 1)%nat.
Proof. unfold pub_if. destruct (truthy o); simpl; lia. Qed.

Lemma call_clean p max_tokens :
  truthy (Main.call_openai_api openai_create p max_tokens) = true →
  clean (default "" (Main.call_openai_api openai_create p max_tokens)).
Proof.
  unfold Main.call_openai_api.
  destruct (openai_create p max_tokens) as [content|]; [|done]. simpl.
  intros Ht. split; [|apply strip_idem].
  apply negb_true_iff in Ht. by apply String.eqb_neq in Ht.
Qed.

Lemma pub_if_clean topic p max_tokens :
  Forall (λ tp, clean tp.2)
    (pub_if topic (Main.call_openai_api openai_create p max_tokens)).
Proof.
  unfold pub_if. destruct (truthy _) eqn:Ht; [|by constructor].
  constructor; [|by constructor]. by apply call_clean.
Qed.

Lemma label_clean text : text ∈ urgency_labels → clean text.
Proof.
  unfold urgency_labels. set_unfold.
  by intros [-> | [-> | [-> | []]]].
Qed.
End MainHandler.

(** X2. In every state and on every payload, whatever the decoder and the
    backend do, the handler of [main.py] returns normally, keeps what was
    published before, and adds at most three publishes. *)
Theorem main_handler_only_appends openai_create json_loads payload_str st :
  fst (Main.process_sensor_data openai_create json_loads payload_str st) = Return tt
  ∧ ∃ news,
      Main.published
        (snd (Main.process_sensor_data openai_create json_loads payload_str st))
      = Main.published st ++ news
      ∧ (length news ≤ 3)%nat.
Proof.
  destruct (main_reading json_loads payload_str) as [[temp humidity]|] eqn:Hr.
  - rewrite (main_process_any openai_create json_loads payload_str temp humidity)
      by done.
    destruct (py_index Main.mock_emails (Main.email_index st)) as [email|];
      (split; [done|]); eexists; (split; [done|]).
    + rewrite !length_app. simpl.
      pose proof (pub_if_length TOPIC_DISPLAY_QUOTE
                    (Main.generate_literary_quote openai_create temp humidity)).
      pose proof (pub_if_length TOPIC_DISPLAY_SUMMARY
                    (Main.summarize_email openai_create (Main.format_email email))).
      lia.
    + pose proof (pub_if_length TOPIC_DISPLAY_QUOTE
                    (Main.generate_literary_quote openai_create temp humidity)).
      lia.
  - rewrite main_process_dropped by done. split; [done|].
    exists []. split; [by rewrite app_nil_r | simpl; lia].
Qed.

Lemma texts_call openai_create p max_tokens :
  texts (Main.call_openai_api openai_create p max_tokens)
  = stripped_answer (openai_create p max_tokens).
Proof.
  unfold texts, truthy, Main.call_openai_api, stripped_answer.
  destruct (openai_create p max_tokens) as [content|]; [|done]. simpl.
  by destruct (String.eqb (strip content) "").
Qed.

(** X3. What the handler of [main.py] publishes for the quote and for the
    summary is the backend's reply without the white space around it: one
    publish of the stripped reply when something is left of it, no publish
    when the call failed or the reply was empty or white space only. So
    every text the handler publishes, in any state, is clean: it is not
    empty and has no white space at either end. *)
Theorem main_publishes_clean_texts :
  (∀ openai_create json_loads payload_str temp humidity st,
     main_reading json_loads payload_str = Some (temp, humidity) →
     0 ≤ Main.email_index st < 3 →
     on_topic TOPIC_DISPLAY_QUOTE
       (Main.published
          (snd (Main.process_sensor_data openai_create json_loads payload_str st)))
     = on_topic TOPIC_DISPLAY_QUOTE (Main.published st)
       ++ stripped_answer (openai_create (QuotePrompt temp humidity) 60)
     ∧ on_topic TOPIC_DISPLAY_SUMMARY
         (Main.published
            (snd (Main.process_sensor_data openai_create json_loads payload_str st)))
       = on_topic TOPIC_DISPLAY_SUMMARY (Main.published st)
         ++ stripped_answer
              (openai_create
                 (SummaryPrompt (entry main_pool (Main.email_index st))) 60))
  ∧ (∀ openai_create json_loads payload_str st,
     ∃ news,
       Main.published
         (snd (Main.process_sensor_data openai_create json_loads payload_str st))
       = Main.published st ++ news
       ∧ Forall (λ tp, clean tp.2) news).
Proof.
  split.
  - intros openai loads payload temp humidity st Hr Hc.
    rewrite (main_process_handled openai loads payload temp humidity) by done.
    cbn [snd Main.published].
    rewrite !on_topic_app, !on_topic_pub_if_same.
    rewrite !on_topic_pub_if_other, !on_topic_one_other by done.
    unfold Main.generate_literary_quote, Main.summarize_email.
    by rewrite !texts_call, !app_nil_r.
  - intros openai_create json_loads payload_str st.
    destruct (main_reading json_loads payload_str) as [[temp humidity]|] eqn:Hr.
    + rewrite (main_process_any openai_create json_loads payload_str temp humidity)
        by done.
      destruct (py_index Main.mock_emails (Main.email_index st)) as [email|];
        eexists; (split; [done|]);
        unfold Main.generate_literary_quote, Main.summarize_email.
      * repeat apply Forall_app_2; try apply pub_if_clean.
        constructor; [|by constructor].
        apply label_clean, main_urgency_label.
      * apply pub_if_clean.
    + rewrite main_process_dropped by done. exists [].
      split; [by rewrite app_nil_r | constructor].
Qed.

Lemma main_publishes_clean_texts_witness :
  on_topic TOPIC_DISPLAY_QUOTE
    (Main.published
       (snd (Main.process_sensor_data (main_backend_says "  Still air. ")
               (decoder_of (Some reading_doc)) "reading" Main.initial)))
  = on_topic TOPIC_DISPLAY_QUOTE (Main.published Main.initial)
    ++ stripped_answer
         (main_backend_says "  Still air. "
            (QuotePrompt (JNum (Decimal 255 (-1))) (JNum (Decimal 600 (-1)))) 60)
  ∧ on_topic TOPIC_DISPLAY_SUMMARY
      (Main.published
         (snd (Main.process_sensor_data (main_backend_says "  Still air. ")
                 (decoder_of (Some reading_doc)) "reading" Main.initial)))
    = on_topic TOPIC_DISPLAY_SUMMARY (Main.published Main.initial)
      ++ stripped_answer
           (main_backend_says "  Still air. "
              (SummaryPrompt (entry main_pool (Main.email_index Main.initial))) 60).
Proof.
  apply (proj1 main_publishes_clean_texts (main_backend_says "  Still air. ")
           (decoder_of (Some reading_doc)) "reading"
           (JNum (Decimal 255 (-1))) (JNum (Decimal 600 (-1))) Main.initial).
  - vm_compute. reflexivity.
  - simpl. lia.
Defined.

(** X4. A handled reading (cursor inside the pool) adds to the bus exactly
    this, in this order: the quote, when the quote call gave a text; the
    summary, when the summary call gave a text; the urgency level, always.
    So there are between one and three publishes, on the topics in the order
    quote, summary, urgency, and the last one is on the urgency topic. *)
Theorem main_publish_order openai_create json_loads payload_str temp humidity st :
  main_reading json_loads payload_str = Some (temp, humidity) →
  0 ≤ Main.email_index st < 3 →
  ∃ news,
    Main.published
      (snd (Main.process_sensor_data openai_create json_loads payload_str st))
    = Main.published st ++ news
    ∧ news
      = (if truthy (Main.generate_literary_quote openai_create temp humidity)
         then [(TOPIC_DISPLAY_QUOTE,
                default "" (Main.generate_literary_quote openai_create temp humidity))]
         else [])
        ++ (if truthy (Main.summarize_email openai_create
                         (entry main_pool (Main.email_index st)))
            then [(TOPIC_DISPLAY_SUMMARY,
                   default "" (Main.summarize_email openai_create
                                 (entry main_pool (Main.email_index st))))]
            else [])
        ++ [(TOPIC_URGENCY_LED,
             Main.analyze_email_urgency openai_create
               (entry main_pool (Main.email_index st)))]
    ∧ (1 ≤ length news ≤ 3)%nat
    ∧ map fst news
      `sublist_of` [TOPIC_DISPLAY_QUOTE; TOPIC_DISPLAY_SUMMARY; TOPIC_URGENCY_LED]
    ∧ last (map fst news) = Some TOPIC_URGENCY_LED.
Proof.
  intros Hr Hc.
  rewrite (main_process_handled openai_create json_loads payload_str temp humidity)
    by done.
  eexists. split; [done|]. unfold pub_if. split; [done|].
  destruct (truthy (Main.generate_literary_quote _ _ _)),
           (truthy (Main.summarize_email _ _)); simpl;
    (split_and!; [lia | lia | | done]);
    repeat first [ apply sublist_nil | apply sublist_skip | apply sublist_cons ].
Qed.

Lemma main_publish_order_witness :
  ∃ news,
    Main.published
      (snd (Main.process_sensor_data (main_backend_no_summary "A quiet room.")
              (decoder_of (Some reading_doc)) "reading" Main.initial))
    = Main.published Main.initial ++ news
    ∧ news = [(TOPIC_DISPLAY_QUOTE, "A quiet room."); (TOPIC_URGENCY_LED, "LOW")]
    ∧ (1 ≤ length news ≤ 3)%nat
    ∧ map fst news
      `sublist_of` [TOPIC_DISPLAY_QUOTE; TOPIC_DISPLAY_SUMMARY; TOPIC_URGENCY_LED]
    ∧ last (map fst news) = Some TOPIC_URGENCY_LED.
Proof.
  apply (main_publish_order (main_backend_no_summary "A quiet room.")
           (decoder_of (Some reading_doc)) "reading"
           (JNum (Decimal 255 (-1))) (JNum (Decimal 600 (-1))) Main.initial).
  - vm_compute. reflexivity.
  - simpl. lia.
Defined.

(** X5. Messages handled one after the other: every payload that passes the
    guard takes exactly one email from the pool and makes exactly one
    urgency publish, and a dropped payload takes none and makes none. So
    after the run the cursor has moved on by the number of handled payloads
    (modulo the pool size), and the urgency topic has received that many
    publishes. *)
Theorem process_all_counts openai_create json_loads payloads st :
  0 ≤ Main.email_index st < 3 →
  fst (Main.process_all openai_create json_loads payloads st) = Return tt
  ∧ Main.email_index (snd (Main.process_all openai_create json_loads payloads st))
    = (Main.email_index st + Z.of_nat (handled_count json_loads payloads)) `mod` 3
  ∧ length (on_topic TOPIC_URGENCY_LED
              (Main.published
                 (snd (Main.process_all openai_create json_loads payloads st))))
    = (length (on_topic TOPIC_URGENCY_LED (Main.published st))
       + handled_count json_loads payloads)%nat.
Proof.
  revert st. induction payloads as [|p rest IH]; intros st Hc.
  - unfold handled_count. simpl.
    split_and!; [done | by rewrite Z.add_0_r, Z.mod_small | lia].
  - cbn [Main.process_all]. unfold bind. unfold handled_count.
    destruct (main_reading json_loads p) as [[temp humidity]|] eqn:Hr.
    + rewrite (main_process_handled openai_create json_loads p temp humidity)
        by done.
      rewrite filter_cons_True by (by rewrite Hr).
      match goal with |- context [Main.process_all _ _ rest ?st1] =>
        destruct (IH st1) as (H1 & H2 & H3) end.
      { simpl. by apply Z.mod_pos_bound. }
      split_and!; [done | |].
      * rewrite H2. cbn [Main.email_index length]. fold (handled_count json_loads rest).
        rewrite Zplus_mod_idemp_l. f_equal. lia.
      * rewrite H3. cbn [Main.published length]. fold (handled_count json_loads rest).
        rewrite !on_topic_app, !on_topic_pub_if_other, on_topic_one_same by done.
        rewrite !length_app. simpl. lia.
    + rewrite main_process_dropped by done.
      rewrite filter_cons_False by (rewrite Hr; by intros [? ?]).
      by apply IH.
Qed.

Lemma process_all_counts_witness :
  let payloads := ["first"; "second"] in
  let run := Main.process_all (main_backend_says "Still air.")
               (decoder_of (Some reading_doc)) payloads Main.initial in
  fst run = Return tt
  ∧ Main.email_index (snd run)
    = (Main.email_index Main.initial
       + Z.of_nat (handled_count (decoder_of (Some reading_doc)) payloads)) `mod` 3
  ∧ length (on_topic TOPIC_URGENCY_LED (Main.published (snd run)))
    = (length (on_topic TOPIC_URGENCY_LED (Main.published Main.initial))
       + handled_count (decoder_of (Some reading_doc)) payloads)%nat.
Proof.
  apply (process_all_counts (main_backend_says "Still air.")
           (decoder_of (Some reading_doc)) ["first"; "second"] Main.initial).
  simpl. lia.
Defined.

(** X6. The urgency classification of [main.py] raises the level only on the
    backend's word: it returns MEDIUM (or HIGH) exactly when the call
    returned a text that, without surrounding white space and in upper case,
    is MEDIUM (or HIGH). *)
Theorem main_urgency_raised_only_on_answer openai_create email_content level :
  level = "MEDIUM" ∨ level = "HIGH" →
  Main.analyze_email_urgency openai_create email_content = level
  ↔ ∃ content, openai_create (UrgencyPrompt email_content) 5 = Some content
               ∧ upper (strip content) = level.
Proof.
  intros Hl. rewrite main_urgency_value. unfold Main.call_openai_api.
  assert (level ∈ urgency_labels ∧ level ≠ "LOW") as [Hin Hlow].
  { unfold urgency_labels. set_unfold. by destruct Hl as [-> | ->]; split; auto. }
  destruct (openai_create (UrgencyPrompt email_content) 5) as [content|].
  - case_bool_decide as E.
    + split; [intros <-; by exists content | by intros (c & [= <-] & <-)].
    + split; [by intros <- | intros (c & [= <-] & Hc)]. by rewrite Hc in E.
  - split; [by intros <- | by intros (c & ? & _)].
Qed.

(** White space and letters outside ASCII count: a reply of a no-break
    space, [hıgh] with a dotless i, and a no-break space is HIGH. *)
Example main_urgency_beyond_ascii :
  Main.analyze_email_urgency (main_backend_says " hıgh ") "Dinner?" = "HIGH".
Proof. by vm_compute. Qed.

Lemma main_urgency_raised_only_on_answer_witness :
  Main.analyze_email_urgency (main_backend_says " high ") "Dinner?" = "HIGH"
  ↔ ∃ content, main_backend_says " high " (UrgencyPrompt "Dinner?") 5 = Some content
               ∧ upper (strip content) = "HIGH".
Proof.
  apply (main_urgency_raised_only_on_answer (main_backend_says " high ") "Dinner?" "HIGH").
  right. reflexivity.
Defined.

(** ** The email source at any cursor *)

Lemma py_index_out_of_range {A} (l : list A) (i : Z) :
  ¬ (- Z.of_nat (length l) ≤ i < Z.of_nat (length l)) → py_index l i = None.
Proof.
  intros Hi. unfold py_index. case_bool_decide.
  - apply lookup_ge_None_2. lia.
  - case_bool_decide; [lia | done].
Qed.

(** X1. The email source at any value of the cursor. Inside the pool, or up to
    a pool length below zero (where Python counts from the end), the call
    returns a text, leaves the cursor inside the pool and publishes
    nothing; anywhere else it raises [IndexError] and changes nothing. *)
Theorem email_source_any_cursor :
  (∀ st : Main.state,
     match Main.get_latest_email st with
     | (Return _, st') =>
         -3 ≤ Main.email_index st < 3
         ∧ 0 ≤ Main.email_index st' < 3
         ∧ Main.published st' = Main.published st
     | (Raise e, st') =>
         e = IndexError ∧ st' = st ∧ ¬ (-3 ≤ Main.email_index st < 3)
     end)
  ∧ (∀ st : MainApi.state,
     match MainApi.get_latest_email st with
     | (Return _, st') =>
         -4 ≤ MainApi.current_email_index st < 4
         ∧ 0 ≤ MainApi.current_email_index st' < 4
         ∧ MainApi.published st' = MainApi.published st
         ∧ MainApi.active_connections st' = MainApi.active_connections st
     | (Raise e, st') =>
         e = IndexError ∧ st' = st ∧ ¬ (-4 ≤ MainApi.current_email_index st < 4)
     end).
Proof.
  split; intros st.
  - destruct (decide (0 ≤ Main.email_index st < 3)) as [Hc|Hc].
    { rewrite main_get_latest_email_spec by done. simpl.
      split; [lia|]. split; [by apply Z.mod_pos_bound | done]. }
    destruct (decide (-3 ≤ Main.email_index st < 0)) as [Hn|Hn].
    { destruct st as [i pub]. simpl in *.
      assert (i = -1 ∨ i = -2 ∨ i = -3) as [-> | [-> | ->]] by lia;
        vm_compute; repeat split; congruence. }
    unfold Main.get_latest_email, bind, gets.
    rewrite py_index_out_of_range by (simpl; lia).
    unfold raise. split; [done|]. split; [done | lia].
  - destruct (decide (0 ≤ MainApi.current_email_index st < 4)) as [Hc|Hc].
    { rewrite api_get_latest_email_spec by done. simpl.
      split; [lia|]. split; [by apply Z.mod_pos_bound | done]. }
    destruct (decide (-4 ≤ MainApi.current_email_index st < 0)) as [Hn|Hn].
    { destruct st as [conns i pub dl]. simpl in *.
      assert (i = -1 ∨ i = -2 ∨ i = -3 ∨ i = -4) as [-> | [-> | [-> | ->]]] by lia;
        vm_compute; repeat split; congruence. }
    unfold MainApi.get_latest_email, bind, gets.
    rewrite py_index_out_of_range by (simpl; lia).
    unfold raise. split; [done|]. split; [done | lia].
Qed.

(** ** The HTTP endpoint in any state *)

(** X7. In every state, whatever the backend does, the endpoint of
    [main_api.py] ends in one of two ways: the success response with exactly
    three publishes added (quote, summary, urgency, in this order), or HTTP
    500 with nothing published. No other exception leaves it. *)
Theorem endpoint_all_or_nothing openai_post data st :
  (fst (MainApi.process_sensor_data openai_post data st) = Return MainApi.accepted
   ∧ ∃ quote summary urgency,
       MainApi.published (snd (MainApi.process_sensor_data openai_post data st))
       = MainApi.published st
         ++ [(MainApi.TOPIC_QUOTE, quote); (MainApi.TOPIC_SUMMARY, summary);
             (MainApi.TOPIC_URGENCY, urgency)])
  ∨ (fst (MainApi.process_sensor_data openai_post data st) = Raise (HTTPException 500)
     ∧ MainApi.published (snd (MainApi.process_sensor_data openai_post data st))
       = MainApi.published st).
Proof.
  unfold MainApi.process_sensor_data, try_except, MainApi.get_latest_email.
  unfold bind, gets, raise, modify, ret, MainApi.gather, MainApi.publish.
  destruct (py_index MainApi.MOCK_EMAILS (MainApi.current_email_index st)) as [email|];
    [|by right].
  destruct (MainApi.generate_literary_quote _ _ _) as [q|eq]; [|by right].
  destruct (MainApi.summarize_email _ _) as [sm|es]; [|by right].
  destruct (MainApi.analyze_email_urgency _ _) as [u|eu]; [|by right].
  left. split; [done|]. exists q, sm, u. simpl. by rewrite <- !app_assoc.
Qed.

(** X8. The endpoint takes an email from the pool before it calls the backend,
    so every request moves the cursor on by one, the requests that end in
    HTTP 500 included: the email of a failed request is not offered again
    until the pool has gone round. *)
Theorem endpoint_always_consumes_email openai_post data st :
  0 ≤ MainApi.current_email_index st < 4 →
  MainApi.current_email_index (snd (MainApi.process_sensor_data openai_post data st))
  = (MainApi.current_email_index st + 1) `mod` 4.
Proof.
  intros Hc. rewrite api_process_spec by done. cbn zeta.
  by repeat case_match.
Qed.

Lemma endpoint_always_consumes_email_witness :
  fst (MainApi.process_sensor_data (api_backend_no_summary "A quiet room.")
         sample_data MainApi.initial)
  = Raise (HTTPException 500)
  ∧ MainApi.current_email_index
      (snd (MainApi.process_sensor_data (api_backend_no_summary "A quiet room.")
              sample_data MainApi.initial))
    = (MainApi.current_email_index MainApi.initial + 1) `mod` 4.
Proof.
  split; [by vm_compute|].
  apply (endpoint_always_consumes_email (api_backend_no_summary "A quiet room.")
           sample_data MainApi.initial).
  simpl. lia.
Defined.

(** ** Broadcast: what always holds *)

Lemma list_remove_sublist {A} `{EqDecision A} (x : A) (l : list A) :
  list_remove x l `sublist_of` l.
Proof.
  induction l as [|y l IH]; simpl; [constructor|].
  case_decide; [by apply sublist_cons | by apply sublist_skip].
Qed.

Lemma list_remove_keeps {A} `{EqDecision A} (x y : A) (l : list A) :
  y ≠ x → y ∈ l → y ∈ list_remove x l.
Proof.
  intros Hne. induction l as [|z l IH]; simpl; [done|].
  intros [-> | Hin]%elem_of_cons; case_decide; subst; try done.
  - left.
  - right. by apply IH.
Qed.

Lemma list_remove_delete {A} `{EqDecision A} (x : A) (l : list A) (i : nat) :
  NoDup l → l !! i = Some x → list_remove x l = delete i l.
Proof.
  intros Hnd. revert i. induction Hnd as [|y l Hy Hnd IH]; intros i Hi; [done|].
  destruct i as [|i]; simpl in *.
  - injection Hi as ->. by rewrite decide_True.
  - rewrite decide_False; [by rewrite (IH i)|].
    intros ->. apply Hy. by eapply list_elem_of_lookup_2.
Qed.

Section BroadcastSafety.
Local Open Scope nat_scope.
Variable send_json_ok : MainApi.WebSocket → gmap string json → bool.
Variable message : gmap string json.

(** Whatever the sockets do, the loop only removes viewers whose send
    failed, and only delivers to registered viewers whose send went
    through. *)
Lemma send_loop_safety fuel i st :
  MainApi.active_connections (snd (MainApi.send_loop send_json_ok fuel message i st))
    `sublist_of` MainApi.active_connections st
  ∧ (∀ c, c ∈ MainApi.active_connections st → send_json_ok c message = true →
       c ∈ MainApi.active_connections
             (snd (MainApi.send_loop send_json_ok fuel message i st)))
  ∧ ∃ receivers,
      MainApi.delivered (snd (MainApi.send_loop send_json_ok fuel message i st))
      = MainApi.delivered st ++ map (λ c, (c, message)) receivers
      ∧ ∀ c, c ∈ receivers →
          c ∈ MainApi.active_connections st ∧ send_json_ok c message = true.
Proof.
  revert i st. induction fuel as [|fuel IH]; intros i st.
  - simpl. split_and!; [done.. |]. exists []. simpl.
    split; [by rewrite app_nil_r | by intros c Hc; apply elem_of_nil in Hc].
  - rewrite send_loop_unfold.
    destruct (MainApi.active_connections st !! i) as [x|] eqn:E.
    2:{ simpl. split_and!; [done.. |]. exists []. simpl.
        split; [by rewrite app_nil_r | by intros c Hc; apply elem_of_nil in Hc]. }
    pose proof (list_elem_of_lookup_2 _ _ _ E) as Hx.
    destruct (send_json_ok x message) eqn:Ex.
    + destruct (IH (S i) (MainApi.add_delivered x message st))
        as (Hsub & Hkeep & rs & Hd & Hrs).
      split_and!; [done.. |]. exists (x :: rs). split.
      * rewrite Hd. simpl. by rewrite <- app_assoc.
      * intros c [-> | Hc]%elem_of_cons; [done | by apply Hrs].
    + destruct (IH (S i) (MainApi.set_active_connections
                            (list_remove x (MainApi.active_connections st)) st))
        as (Hsub & Hkeep & rs & Hd & Hrs).
      simpl in *. split_and!.
      * etrans; [exact Hsub | apply list_remove_sublist].
      * intros c Hc Hok. apply Hkeep; [|done].
        apply list_remove_keeps; [|done]. intros ->. congruence.
      * exists rs. split; [done|]. intros c Hc.
        destruct (Hrs c Hc) as [Hin Hok]. split; [|done].
        eapply sublist_subseteq; [apply list_remove_sublist | done].
Qed.

(** With a duplicate-free viewer list, the entries below the iterator's
    index are out of the loop's reach: they stay where they are and are no
    receivers. *)
Lemma send_loop_keeps_earlier fuel i st :
  NoDup (MainApi.active_connections st) →
  ∃ receivers,
    MainApi.delivered (snd (MainApi.send_loop send_json_ok fuel message i st))
    = MainApi.delivered st ++ map (λ c, (c, message)) receivers
    ∧ ∀ j c, j < i → MainApi.active_connections st !! j = Some c →
        MainApi.active_connections
          (snd (MainApi.send_loop send_json_ok fuel message i st)) !! j = Some c
        ∧ c ∉ receivers.
Proof.
  revert i st. induction fuel as [|fuel IH]; intros i st Hnd.
  - exists []. simpl. split; [by rewrite app_nil_r|].
    intros j c _ Hj. split; [done | apply not_elem_of_nil].
  - rewrite send_loop_unfold.
    destruct (MainApi.active_connections st !! i) as [x|] eqn:E.
    2:{ exists []. simpl. split; [by rewrite app_nil_r|].
        intros j c _ Hj. split; [done | apply not_elem_of_nil]. }
    destruct (send_json_ok x message) eqn:Ex.
    + destruct (IH (S i) (MainApi.add_delivered x message st) Hnd) as (rs & Hd & Hrs).
      exists (x :: rs). split; [rewrite Hd; simpl; by rewrite <- app_assoc|].
      intros j c Hj Hc. destruct (Hrs j c) as [Hl Hn]; [lia | done |].
      split; [done|]. apply not_elem_of_cons. split; [|done].
      intros ->. pose proof (NoDup_lookup _ _ _ _ Hnd Hc E). lia.
    + destruct (IH (S i) (MainApi.set_active_connections
                            (list_remove x (MainApi.active_connections st)) st))
        as (rs & Hd & Hrs).
      { simpl. eapply sublist_NoDup; [exact Hnd | apply list_remove_sublist]. }
      exists rs. split; [done|]. intros j c Hj Hc.
      apply Hrs; [lia|]. simpl.
      rewrite (list_remove_delete x _ i) by done.
      by rewrite list_lookup_delete_lt.
Qed.
End BroadcastSafety.

Section BroadcastSkip.
Local Open Scope nat_scope.
Variable send_json_ok : MainApi.WebSocket → gmap string json → bool.
Variable message : gmap string json.

Lemma send_loop_skips_successor fuel i st pre failing next post :
  MainApi.active_connections st = pre ++ failing :: next :: post →
  NoDup (pre ++ failing :: next :: post) →
  send_json_ok failing message = false →
  (∀ c, c ∈ pre → send_json_ok c message = true) →
  i ≤ length pre →
  length (MainApi.active_connections st) ≤ i + fuel →
  ∃ receivers,
    MainApi.delivered (snd (MainApi.send_loop send_json_ok fuel message i st))
    = MainApi.delivered st ++ map (λ c, (c, message)) receivers
    ∧ next ∈ MainApi.active_connections
               (snd (MainApi.send_loop send_json_ok fuel message i st))
    ∧ next ∉ receivers.
Proof.
  intros Hconns Hnd Hfail Hok.
  revert i st Hconns. induction fuel as [|fuel IH]; intros i st Hconns Hi Hlen.
  - rewrite Hconns, length_app in Hlen. simpl in Hlen. lia.
  - rewrite send_loop_unfold, Hconns.
    pose proof Hnd as Hnd'. apply NoDup_app in Hnd' as (_ & Hpre & Htail).
    destruct (decide (i = length pre)) as [->|Hne].
    + rewrite list_lookup_middle by done. rewrite Hfail.
      rewrite list_remove_middle by (intros Hin; apply (Hpre _ Hin); left).
      destruct (send_loop_keeps_earlier send_json_ok message fuel (S (length pre))
                  (MainApi.set_active_connections (pre ++ next :: post) st))
        as (rs & Hd & Hrs).
      { simpl. eapply sublist_NoDup; [exact Hnd|].
        apply sublist_app; [done|]. by apply sublist_cons. }
      exists rs. split; [done|].
      destruct (Hrs (length pre) next) as [Hl Hn];
        [lia | simpl; by rewrite list_lookup_middle |].
      split; [by eapply list_elem_of_lookup_2 | done].
    + assert (i < length pre) as Hlt by lia.
      destruct (lookup_lt_is_Some_2 pre i Hlt) as [c Hc].
      pose proof (list_elem_of_lookup_2 _ _ _ Hc) as Hcin.
      rewrite lookup_app_l, Hc by done. rewrite Hok by done.
      destruct (IH (S i) (MainApi.add_delivered c message st))
        as (rs & Hd & Hin & Hn); [done | lia | simpl; lia |].
      exists (c :: rs). split; [rewrite Hd; simpl; by rewrite <- app_assoc|].
      split; [done|]. apply not_elem_of_cons. split; [|done].
      intros ->. apply (Hpre _ Hcin). right. left.
Qed.
End BroadcastSkip.

(** X9. A broadcast to no viewers, or on a topic that is none of the four bus
    topics, does nothing at all: no socket is tried, nobody is removed. *)
Theorem broadcast_nothing_to_do send_json_ok topic payload st :
  MainApi.active_connections st = []
  ∨ (topic ≠ TOPIC_SENSOR_DATA ∧ topic ≠ MainApi.TOPIC_QUOTE
     ∧ topic ≠ MainApi.TOPIC_SUMMARY ∧ topic ≠ MainApi.TOPIC_URGENCY) →
  MainApi.broadcast_message send_json_ok topic payload st = (Return tt, st).
Proof.
  intros H. unfold MainApi.broadcast_message, bind, gets.
  case_bool_decide as Hv; [done|]. destruct H as [H | (H1 & H2 & H3 & H4)]; [done|].
  unfold MainApi.build_message.
  apply String.eqb_neq in H1, H2, H3, H4. rewrite H1, H2, H3, H4.
  by rewrite bool_decide_eq_false_2 by (rewrite map_size_empty; auto).
Qed.

Lemma broadcast_nothing_to_do_witness :
  MainApi.broadcast_message (only_refuses 2%nat) "auralink/display/other"
    {[ "quote" := JStr "A quiet room." ]} (api_with_viewers [1; 2; 3]%nat)
  = (Return tt, api_with_viewers [1; 2; 3]%nat).
Proof.
  apply (broadcast_nothing_to_do (only_refuses 2%nat) "auralink/display/other"
           {[ "quote" := JStr "A quiet room." ]} (api_with_viewers [1; 2; 3]%nat)).
  right. by split_and!.
Defined.

(** X10. When every viewer's send goes through, every viewer receives the event
    exactly once, in list order, and the viewer list is as it was. *)
Theorem broadcast_reaches_all send_json_ok topic payload st :
  size (MainApi.build_message topic payload) ≠ 0%nat →
  (∀ c, c ∈ MainApi.active_connections st →
        send_json_ok c (MainApi.build_message topic payload) = true) →
  MainApi.active_connections
    (snd (MainApi.broadcast_message send_json_ok topic payload st))
  = MainApi.active_connections st
  ∧ MainApi.delivered (snd (MainApi.broadcast_message send_json_ok topic payload st))
    = MainApi.delivered st
      ++ map (λ c, (c, MainApi.build_message topic payload))
           (MainApi.active_connections st).
Proof.
  intros Hmsg Hok. unfold MainApi.broadcast_message, bind, gets.
  case_bool_decide as Hv; [rewrite Hv; simpl; by rewrite app_nil_r|].
  rewrite bool_decide_eq_true_2 by done.
  destruct (send_loop_all_ok send_json_ok (MainApi.build_message topic payload)
              (length (MainApi.active_connections st)) 0%nat st) as [-> ->];
    [by rewrite drop_0 | lia |].
  by rewrite drop_0.
Qed.

Lemma broadcast_reaches_all_witness :
  let payload : gmap string json := {[ "level" := JStr "HIGH" ]} in
  MainApi.active_connections
    (snd (MainApi.broadcast_message all_accept MainApi.TOPIC_URGENCY payload
            (api_with_viewers [1; 2; 3]%nat)))
  = MainApi.active_connections (api_with_viewers [1; 2; 3]%nat)
  ∧ MainApi.delivered
      (snd (MainApi.broadcast_message all_accept MainApi.TOPIC_URGENCY payload
              (api_with_viewers [1; 2; 3]%nat)))
    = MainApi.delivered (api_with_viewers [1; 2; 3]%nat)
      ++ map (λ c, (c, MainApi.build_message MainApi.TOPIC_URGENCY payload))
           (MainApi.active_connections (api_with_viewers [1; 2; 3]%nat)).
Proof.
  intros payload.
  apply (broadcast_reaches_all all_accept MainApi.TOPIC_URGENCY payload
           (api_with_viewers [1; 2; 3]%nat)).
  - vm_compute. lia.
  - reflexivity.
Defined.

(** X11. When the only viewer whose send fails is the last of the list, it is
    removed and every other viewer receives the event. *)
Theorem broadcast_last_viewer_fails send_json_ok topic payload st pre failing :
  size (MainApi.build_message topic payload) ≠ 0%nat →
  MainApi.active_connections st = pre ++ [failing] →
  NoDup (pre ++ [failing]) →
  send_json_ok failing (MainApi.build_message topic payload) = false →
  (∀ c, c ∈ pre → send_json_ok c (MainApi.build_message topic payload) = true) →
  MainApi.active_connections
    (snd (MainApi.broadcast_message send_json_ok topic payload st)) = pre
  ∧ MainApi.delivered (snd (MainApi.broadcast_message send_json_ok topic payload st))
    = MainApi.delivered st
      ++ map (λ c, (c, MainApi.build_message topic payload)) pre.
Proof.
  intros Hmsg Hconns Hnd Hfail Hok.
  unfold MainApi.broadcast_message, bind, gets.
  rewrite bool_decide_eq_false_2 by (rewrite Hconns; by destruct pre).
  rewrite bool_decide_eq_true_2 by done.
  destruct (send_loop_one_failure send_json_ok
              (MainApi.build_message topic payload)
              (length (MainApi.active_connections st)) 0%nat st
              pre failing []) as [-> ->]; try done.
  - intros c Hc. apply Hok. by rewrite app_nil_r in Hc.
  - lia.
  - simpl. by rewrite !app_nil_r, drop_0.
Qed.

Lemma broadcast_last_viewer_fails_witness :
  let payload : gmap string json := {[ "quote" := JStr "A quiet room." ]} in
  MainApi.active_connections
    (snd (MainApi.broadcast_message (only_refuses 3%nat) MainApi.TOPIC_QUOTE payload
            (api_with_viewers [1; 2; 3]%nat)))
  = [1; 2]%nat
  ∧ MainApi.delivered
      (snd (MainApi.broadcast_message (only_refuses 3%nat) MainApi.TOPIC_QUOTE payload
              (api_with_viewers [1; 2; 3]%nat)))
    = MainApi.delivered (api_with_viewers [1; 2; 3]%nat)
      ++ map (λ c, (c, MainApi.build_message MainApi.TOPIC_QUOTE payload)) [1; 2]%nat.
Proof.
  intros payload.
  apply (broadcast_last_viewer_fails (only_refuses 3%nat) MainApi.TOPIC_QUOTE payload
           (api_with_viewers [1; 2; 3]%nat) [1; 2]%nat 3%nat).
  - vm_compute. lia.
  - reflexivity.
  - apply (bool_decide_unpack _). vm_compute. exact I.
  - reflexivity.
  - intros c Hc. set_unfold in Hc. destruct Hc as [-> | [-> | []]]; reflexivity.
Defined.

(** X12. Whatever the sockets do, a broadcast returns normally; it removes no
    viewer whose send goes through and adds none; it delivers only to
    registered viewers whose send went through; and it touches neither the
    bus nor the email cursor. *)
Theorem broadcast_safety send_json_ok topic payload st :
  fst (MainApi.broadcast_message send_json_ok topic payload st) = Return tt
  ∧ MainApi.active_connections
      (snd (MainApi.broadcast_message send_json_ok topic payload st))
    `sublist_of` MainApi.active_connections st
  ∧ (∀ c, c ∈ MainApi.active_connections st →
       send_json_ok c (MainApi.build_message topic payload) = true →
       c ∈ MainApi.active_connections
             (snd (MainApi.broadcast_message send_json_ok topic payload st)))
  ∧ (∃ receivers,
       MainApi.delivered (snd (MainApi.broadcast_message send_json_ok topic payload st))
       = MainApi.delivered st
         ++ map (λ c, (c, MainApi.build_message topic payload)) receivers
       ∧ ∀ c, c ∈ receivers →
           c ∈ MainApi.active_connections st
           ∧ send_json_ok c (MainApi.build_message topic payload) = true)
  ∧ MainApi.published (snd (MainApi.broadcast_message send_json_ok topic payload st))
    = MainApi.published st
  ∧ MainApi.current_email_index
      (snd (MainApi.broadcast_message send_json_ok topic payload st))
    = MainApi.current_email_index st.
Proof.
  destruct (broadcast_keeps send_json_ok topic payload st) as [Hi Hp].
  split_and!; [| | | | exact Hp | exact Hi];
    unfold MainApi.broadcast_message, bind, gets;
    (case_bool_decide; [|case_bool_decide]); simpl; try done.
  - apply send_loop_returns.
  - apply send_loop_safety.
  - apply send_loop_safety.
  - exists []. simpl. split; [by rewrite app_nil_r|]. by intros c Hc%elem_of_nil.
  - apply send_loop_safety.
  - exists []. simpl. split; [by rewrite app_nil_r|]. by intros c Hc%elem_of_nil.
Qed.

(** X13. A viewer that stands right after a viewer whose send fails is out of
    the broadcast's reach, dead or alive: it is not tried, so it receives
    nothing and, if its socket is dead too, it is not removed in that
    call. *)
Theorem broadcast_leaves_viewer_after_failure
    send_json_ok topic payload st pre failing next post :
  size (MainApi.build_message topic payload) ≠ 0%nat →
  MainApi.active_connections st = pre ++ failing :: next :: post →
  NoDup (pre ++ failing :: next :: post) →
  send_json_ok failing (MainApi.build_message topic payload) = false →
  (∀ c, c ∈ pre → send_json_ok c (MainApi.build_message topic payload) = true) →
  ∃ receivers,
    MainApi.delivered (snd (MainApi.broadcast_message send_json_ok topic payload st))
    = MainApi.delivered st
      ++ map (λ c, (c, MainApi.build_message topic payload)) receivers
    ∧ next ∈ MainApi.active_connections
               (snd (MainApi.broadcast_message send_json_ok topic payload st))
    ∧ next ∉ receivers.
Proof.
  intros Hmsg Hconns Hnd Hfail Hok.
  unfold MainApi.broadcast_message, bind, gets.
  rewrite bool_decide_eq_false_2 by (rewrite Hconns; by destruct pre).
  rewrite bool_decide_eq_true_2 by done.
  apply (send_loop_skips_successor send_json_ok (MainApi.build_message topic payload)
           (length (MainApi.active_connections st)) 0%nat st pre failing next post);
    try done; lia.
Qed.

Lemma broadcast_leaves_viewer_after_failure_witness :
  let payload : gmap string json := {[ "summary" := JStr "Server down." ]} in
  ∃ receivers,
    MainApi.delivered
      (snd (MainApi.broadcast_message (λ _ _, false) MainApi.TOPIC_SUMMARY payload
              (api_with_viewers [1; 2]%nat)))
    = MainApi.delivered (api_with_viewers [1; 2]%nat)
      ++ map (λ c, (c, MainApi.build_message MainApi.TOPIC_SUMMARY payload)) receivers
    ∧ 2%nat ∈ MainApi.active_connections
                (snd (MainApi.broadcast_message (λ _ _, false) MainApi.TOPIC_SUMMARY
                        payload (api_with_viewers [1; 2]%nat)))
    ∧ 2%nat ∉ receivers.
Proof.
  intros payload.
  apply (broadcast_leaves_viewer_after_failure (λ _ _, false) MainApi.TOPIC_SUMMARY
           payload (api_with_viewers [1; 2]%nat) [] 1%nat 2%nat []).
  - vm_compute. lia.
  - reflexivity.
  - apply (bool_decide_unpack _). vm_compute. exact I.
  - reflexivity.
  - intros c Hc. by apply elem_of_nil in Hc.
Defined.

(** ** The events *)

(** X14. Every event a broadcast sends has a [type] entry, so a viewer can
    always tell the kind of event. On the sensor topic the event carries the
    entries of the payload unchanged, and its type is [sensor_data] unless
    the payload brings a [type] entry of its own, which then takes its
    place. *)
Theorem events_are_typed send_json_ok topic payload st :
  ∃ receivers,
    MainApi.delivered (snd (MainApi.broadcast_message send_json_ok topic payload st))
    = MainApi.delivered st
      ++ map (λ c, (c, MainApi.build_message topic payload)) receivers
    ∧ (receivers ≠ [] → is_Some (MainApi.build_message topic payload !! "type"))
    ∧ (topic = TOPIC_SENSOR_DATA →
         MainApi.build_message topic payload !! "type"
         = Some (default (JStr "sensor_data") (payload !! "type"))
         ∧ ∀ key, key ≠ "type" →
             MainApi.build_message topic payload !! key = payload !! key).
Proof.
  assert (size (MainApi.build_message topic payload) ≠ 0%nat →
          is_Some (MainApi.build_message topic payload !! "type")) as Htype.
  { unfold MainApi.build_message.
    destruct (String.eqb topic TOPIC_SENSOR_DATA).
    { intros _. rewrite lookup_union.
      destruct (payload !! "type"); by rewrite ?lookup_singleton_eq. }
    repeat (destruct (String.eqb topic _); [intros _; by rewrite lookup_insert_eq|]).
    by rewrite map_size_empty. }
  assert (topic = TOPIC_SENSOR_DATA →
          MainApi.build_message topic payload
          = payload ∪ {[ "type" := JStr "sensor_data" ]}) as Hsensor
    by (by intros ->).
  unfold MainApi.broadcast_message, bind, gets.
  case_bool_decide; [|case_bool_decide].
  - exists []. simpl. rewrite app_nil_r. split_and!; [done.. |].
    intros Ht. rewrite (Hsensor Ht). split.
    + rewrite lookup_union. destruct (payload !! "type"); by rewrite ?lookup_singleton_eq.
    + intros key Hk. rewrite lookup_union, lookup_singleton_ne by done.
      by destruct (payload !! key).
  - destruct (send_loop_delivered send_json_ok (MainApi.build_message topic payload)
                (length (MainApi.active_connections st)) 0%nat st) as [rs Hd].
    exists rs. split_and!; [done | by intros _; apply Htype |].
    intros Ht. rewrite (Hsensor Ht). split.
    + rewrite lookup_union. destruct (payload !! "type"); by rewrite ?lookup_singleton_eq.
    + intros key Hk. rewrite lookup_union, lookup_singleton_ne by done.
      by destruct (payload !! key).
  - exists []. simpl. rewrite app_nil_r. split_and!; [done.. |].
    intros Ht. rewrite (Hsensor Ht). split.
    + rewrite lookup_union. destruct (payload !! "type"); by rewrite ?lookup_singleton_eq.
    + intros key Hk. rewrite lookup_union, lookup_singleton_ne by done.
      by destruct (payload !! key).
Qed.

(** ** A viewer's connection from accept to close *)

Lemma py_remove_last {A} `{EqDecision A} (x : A) (l : list A) :
  x ∉ l → py_remove x (l ++ [x]) = Some l.
Proof.
  intros Hx. unfold py_remove.
  rewrite decide_True by (apply elem_of_app; right; left).
  by rewrite list_remove_middle, app_nil_r.
Qed.

(** X15. A connection during which nothing touches the viewer list: the socket
    is registered while the receive loop runs and, when the loop ends, the
    endpoint ends normally and the list is what it was before the
    connection. *)
Theorem websocket_endpoint_round_trip websocket meanwhile st :
  websocket ∉ MainApi.active_connections st →
  (∀ st0, MainApi.active_connections (meanwhile st0) = MainApi.active_connections st0) →
  fst (MainApi.websocket_endpoint websocket meanwhile st) = MainApi.Closed
  ∧ MainApi.active_connections (snd (MainApi.websocket_endpoint websocket meanwhile st))
    = MainApi.active_connections st.
Proof.
  intros Hfresh Hkeep. unfold MainApi.websocket_endpoint. cbn zeta.
  rewrite Hkeep. simpl. by rewrite py_remove_last.
Qed.

Lemma websocket_endpoint_round_trip_witness :
  fst (MainApi.websocket_endpoint 3%nat
         (λ st0, snd (MainApi.publish MainApi.TOPIC_QUOTE "A quiet room." st0))
         (api_with_viewers [1; 2]%nat))
  = MainApi.Closed
  ∧ MainApi.active_connections
      (snd (MainApi.websocket_endpoint 3%nat
              (λ st0, snd (MainApi.publish MainApi.TOPIC_QUOTE "A quiet room." st0))
              (api_with_viewers [1; 2]%nat)))
    = MainApi.active_connections (api_with_viewers [1; 2]%nat).
Proof.
  apply (websocket_endpoint_round_trip 3%nat
           (λ st0, snd (MainApi.publish MainApi.TOPIC_QUOTE "A quiet room." st0))
           (api_with_viewers [1; 2]%nat)).
  - simpl. set_unfold. intros [H | [H | []]]; discriminate H.
  - intros st0. reflexivity.
Defined.

(** X16. A connection during which a broadcast finds the socket dead: the
    broadcast removes the socket from the viewer list, and when the receive
    loop ends, the [remove] of the [finally] clause finds nothing to remove:
    the endpoint ends with [ValueError]. *)
Theorem websocket_endpoint_after_eviction websocket send_json_ok topic payload st :
  websocket ∉ MainApi.active_connections st →
  NoDup (MainApi.active_connections st) →
  size (MainApi.build_message topic payload) ≠ 0%nat →
  send_json_ok websocket (MainApi.build_message topic payload) = false →
  (∀ c, c ∈ MainApi.active_connections st →
        send_json_ok c (MainApi.build_message topic payload) = true) →
  fst (MainApi.websocket_endpoint websocket
         (λ st0, snd (MainApi.broadcast_message send_json_ok topic payload st0)) st)
  = MainApi.ValueError
  ∧ MainApi.active_connections
      (snd (MainApi.websocket_endpoint websocket
              (λ st0, snd (MainApi.broadcast_message send_json_ok topic payload st0)) st))
    = MainApi.active_connections st.
Proof.
  intros Hfresh Hnd Hmsg Hfail Hok.
  unfold MainApi.websocket_endpoint. cbn zeta.
  set (st1 := MainApi.set_active_connections
                (MainApi.active_connections st ++ [websocket]) st).
  assert (MainApi.active_connections
            (snd (MainApi.broadcast_message send_json_ok topic payload st1))
          = MainApi.active_connections st) as Hafter.
  { unfold MainApi.broadcast_message, bind, gets.
    rewrite bool_decide_eq_false_2
      by (simpl; by destruct (MainApi.active_connections st)).
    rewrite bool_decide_eq_true_2 by done.
    destruct (send_loop_one_failure send_json_ok
                (MainApi.build_message topic payload)
                (length (MainApi.active_connections st1)) 0%nat st1
                (MainApi.active_connections st) websocket []) as [-> _]; try done.
    - apply NoDup_app. split_and!; [done | | apply NoDup_singleton].
      intros c Hc [-> | []%elem_of_nil]%elem_of_cons. done.
    - intros c Hc. apply Hok. by rewrite app_nil_r in Hc.
    - lia.
    - by rewrite app_nil_r. }
  rewrite Hafter. unfold py_remove. by rewrite decide_False.
Qed.

Lemma websocket_endpoint_after_eviction_witness :
  let payload : gmap string json := {[ "quote" := JStr "A quiet room." ]} in
  fst (MainApi.websocket_endpoint 3%nat
         (λ st0, snd (MainApi.broadcast_message (only_refuses 3%nat)
                        MainApi.TOPIC_QUOTE payload st0))
         (api_with_viewers [1; 2]%nat))
  = MainApi.ValueError
  ∧ MainApi.active_connections
      (snd (MainApi.websocket_endpoint 3%nat
              (λ st0, snd (MainApi.broadcast_message (only_refuses 3%nat)
                             MainApi.TOPIC_QUOTE payload st0))
              (api_with_viewers [1; 2]%nat)))
    = MainApi.active_connections (api_with_viewers [1; 2]%nat).
Proof.
  intros payload.
  apply (websocket_endpoint_after_eviction 3%nat (only_refuses 3%nat)
           MainApi.TOPIC_QUOTE payload (api_with_viewers [1; 2]%nat)).
  - simpl. set_unfold. intros [H | [H | []]]; discriminate H.
  - apply (bool_decide_unpack _). vm_compute. exact I.
  - vm_compute. lia.
  - reflexivity.
  - intros c Hc. simpl in Hc. set_unfold in Hc.
    destruct Hc as [-> | [-> | []]]; reflexivity.
Defined.

(** ** The texts the HTTP endpoint publishes *)

(** X17. When the three backend calls of a request return, what the endpoint
    of [main_api.py] publishes is exactly the three replies without the
    white space around them, on the quote, summary and urgency topics in
    this order. Unlike the handler of [main.py], the endpoint holds nothing
    back: a reply that is empty or white space only is published as the
    empty text. What is published has no white space left at either end. *)
Theorem endpoint_publishes_stripped_texts
    openai_post data st quote_reply summary_reply urgency_reply :
  0 ≤ MainApi.current_email_index st < 4 →
  openai_post (QuotePrompt (JNum (MainApi.temperature data))
                 (JNum (MainApi.humidity data)))
  = Some quote_reply →
  openai_post (SummaryPrompt
                 (entry MainApi.MOCK_EMAILS (MainApi.current_email_index st)))
  = Some summary_reply →
  openai_post (UrgencyPrompt
                 (entry MainApi.MOCK_EMAILS (MainApi.current_email_index st)))
  = Some urgency_reply →
  fst (MainApi.process_sensor_data openai_post data st) = Return MainApi.accepted
  ∧ MainApi.published (snd (MainApi.process_sensor_data openai_post data st))
    = MainApi.published st
      ++ [(MainApi.TOPIC_QUOTE, strip quote_reply);
          (MainApi.TOPIC_SUMMARY, strip summary_reply);
          (MainApi.TOPIC_URGENCY, strip urgency_reply)]
  ∧ Forall (λ text, strip text = text)
      [strip quote_reply; strip summary_reply; strip urgency_reply].
Proof.
  intros Hc Hq Hs Hu. rewrite api_process_spec by done. cbn zeta.
  unfold MainApi.generate_literary_quote, MainApi.summarize_email,
    MainApi.analyze_email_urgency, MainApi.chat.
  rewrite Hq, Hs, Hu. split_and!; [done | done |].
  repeat constructor; apply strip_idem.
Qed.

Lemma endpoint_publishes_stripped_texts_witness :
  fst (MainApi.process_sensor_data (api_backend_says "   ") sample_data MainApi.initial)
  = Return MainApi.accepted
  ∧ MainApi.published
      (snd (MainApi.process_sensor_data (api_backend_says "   ") sample_data
              MainApi.initial))
    = MainApi.published MainApi.initial
      ++ [(MainApi.TOPIC_QUOTE, strip "   "); (MainApi.TOPIC_SUMMARY, strip "   ");
          (MainApi.TOPIC_URGENCY, strip "   ")]
  ∧ Forall (λ text, strip text = text) [strip "   "; strip "   "; strip "   "].
Proof.
  apply (endpoint_publishes_stripped_texts (api_backend_says "   ") sample_data
           MainApi.initial "   " "   " "   ").
  - simpl. lia.
  - reflexivity.
  - reflexivity.
  - reflexivity.
Defined.

(** The run of the witness, spelled out: three empty texts go to the bus. *)
Example endpoint_publishes_empty_texts :
  MainApi.published
    (snd (MainApi.process_sensor_data (api_backend_says "   ") sample_data
            MainApi.initial))
  = [(MainApi.TOPIC_QUOTE, ""); (MainApi.TOPIC_SUMMARY, ""); (MainApi.TOPIC_URGENCY, "")].
Proof. by vm_compute. Qed.
